(** * media_organizer.py: classification, placement and hash-verified copy

    A shallow embedding of the core of [media_organizer.py] (class
    [MediaOrganizer] and the module-level probe helpers) together with the
    properties of the specification that concern it.

    Conventions of the embedding.
    - A Python [str] is a list of code points ([str := list N]); literals are
      written [py "..."] and decoded from UTF-8.  [lower]/[upper] fold the
      ASCII letters only.
    - A [pathlib.Path] is the list of its components below the root.
    - The file tree is a finite map from paths to nodes; what the operating
      system may refuse (permissions, a full volume) is part of the world.
    - What the code obtains from other programs and libraries (exiftool, PIL,
      hachoir, the clock, sha256) is read from an environment record.
    - A Python exception is a value of [exn]; fallible code lives in
      [result], stateful code in [M]. *)

From Stdlib Require Import ZArith NArith String Ascii List Lia Bool.
From stdpp Require Import base option list sorting gmap strings.

Set Warnings "-register-all,-abstract-large-number".
Local Open Scope N_scope.

(** ** Python strings *)

Module Py.

Definition char := N.
Definition str := list N.

(** UTF-8 decoding of a source literal into code points. *)
Fixpoint decode (bs : list N) : str :=
  match bs with
  | [] => []
  | b0 :: t0 =>
    if b0 <? 128 then b0 :: decode t0
    else match t0 with
    | [] => [b0]
    | b1 :: t1 =>
      if b0 <? 224 then ((b0 - 192) * 64 + (b1 - 128)) :: decode t1
      else match t1 with
      | [] => [b0; b1]
      | b2 :: t2 =>
        if b0 <? 240
        then ((b0 - 224) * 4096 + (b1 - 128) * 64 + (b2 - 128)) :: decode t2
        else match t2 with
        | [] => [b0; b1; b2]
        | b3 :: t3 =>
          ((b0 - 240) * 262144 + (b1 - 128) * 4096 + (b2 - 128) * 64 + (b3 - 128))
            :: decode t3
        end
      end
    end
  end.

Fixpoint bytes_of (s : string) : list N :=
  match s with
  | EmptyString => []
  | String a r => N_of_ascii a :: bytes_of r
  end.

Definition py (s : string) : str := decode (bytes_of s).

Definition eqb (a b : str) : bool := bool_decide (a = b).

(** [str.lower()] and [str.upper()], on the ASCII letters. *)
Definition lower_char (c : char) : char :=
  if (65 <=? c) && (c <=? 90) then c + 32 else c.
Definition upper_char (c : char) : char :=
  if (97 <=? c) && (c <=? 122) then c - 32 else c.
Definition lower (s : str) : str := map lower_char s.
Definition upper (s : str) : str := map upper_char s.

(** [s.startswith(p)], [s.endswith(p)], [p in s]. *)
Fixpoint startswith (s p : str) : bool :=
  match p, s with
  | [], _ => true
  | _ :: _, [] => false
  | a :: p', b :: s' => (a =? b) && startswith s' p'
  end.

Definition endswith (s p : str) : bool := startswith (rev s) (rev p).

Fixpoint contains (needle hay : str) : bool :=
  startswith hay needle ||
  match hay with
  | [] => false
  | _ :: hay' => contains needle hay'
  end.

(** [str.isspace] on one code point (the Unicode White_Space set together
    with the four separators U+001C..U+001F, as CPython has it). *)
Definition is_space (c : char) : bool :=
  ((9 <=? c) && (c <=? 13)) || ((28 <=? c) && (c <=? 32)) ||
  (c =? 133) || (c =? 160) || (c =? 5760) ||
  ((8192 <=? c) && (c <=? 8202)) || (c =? 8232) || (c =? 8233) ||
  (c =? 8239) || (c =? 8287) || (c =? 12288).

Fixpoint lstrip_by (f : char -> bool) (s : str) : str :=
  match s with
  | c :: s' => if f c then lstrip_by f s' else s
  | [] => []
  end.
Definition rstrip_by (f : char -> bool) (s : str) : str :=
  rev (lstrip_by f (rev s)).
Definition strip_by (f : char -> bool) (s : str) : str :=
  rstrip_by f (lstrip_by f s).

(** [s.strip()] and [s.strip("_")]. *)
Definition strip (s : str) : str := strip_by is_space s.
Definition strip_chars (cs : str) (s : str) : str :=
  strip_by (fun c => bool_decide (c ∈ cs)) s.

(** [s.replace(a, b)] for one-character [a] and [b]. *)
Definition replace_char (a b : char) (s : str) : str :=
  map (fun c => if c =? a then b else c) s.

(** [s.replace(a, b, count)] for one-character [a] and [b]. *)
Fixpoint replace_char_n (a b : char) (n : nat) (s : str) : str :=
  match s, n with
  | [], _ => []
  | _, O => s
  | c :: s', S n' =>
    if c =? a then b :: replace_char_n a b n' s' else c :: replace_char_n a b n s'
  end.

(** [s.rfind(".")]: the index of the last dot. *)
Fixpoint rfind_from (c : char) (s : str) (i : nat) (acc : option nat) : option nat :=
  match s with
  | [] => acc
  | d :: s' => rfind_from c s' (S i) (if d =? c then Some i else acc)
  end.
Definition rfind (c : char) (s : str) : option nat := rfind_from c s 0%nat None.

(** [str.isdigit] and [int(s)] on the ASCII digits. *)
Definition is_digit (c : char) : bool := (48 <=? c) && (c <=? 57).
Definition isdigit (s : str) : bool :=
  match s with [] => false | _ => forallb is_digit s end.
Definition int_of_digits (s : str) : Z :=
  fold_left (fun acc c => (acc * 10 + Z.of_N (c - 48))%Z) s 0%Z.

(** [str(i)] for a natural number: its decimal digits. *)
Fixpoint digits_fuel (fuel : nat) (n : N) (acc : str) : str :=
  match fuel with
  | O => acc
  | S f =>
    let acc' := (48 + n mod 10) :: acc in
    if n <? 10 then acc' else digits_fuel f (n / 10) acc'
  end.
Definition str_of_N (n : N) : str := digits_fuel (S (N.to_nat (N.log2 n))) n [].
Definition str_of_nat (n : nat) : str := str_of_N (N.of_nat n).

(** [str(z)] for an integer. *)
Definition str_of_Z (z : Z) : str :=
  match z with
  | Zneg p => 45 :: str_of_N (Npos p)
  | _ => str_of_N (Z.to_N z)
  end.

(** ["sep".join(parts)]. *)
Fixpoint join (sep : str) (parts : list str) : str :=
  match parts with
  | [] => []
  | [p] => p
  | p :: ps => p ++ sep ++ join sep ps
  end.

(** [s.split(sep)] for a one-character separator. *)
Fixpoint split_on (sep : char) (s : str) (cur : str) : list str :=
  match s with
  | [] => [rev cur]
  | c :: s' => if c =? sep then rev cur :: split_on sep s' [] else split_on sep s' (c :: cur)
  end.

End Py.

Export Py.

(** ** pathlib *)

Module Path.

(** An absolute path: its components below the root. *)
Definition path := list str.

Definition name (p : path) : str := List.last p [].

(** [PurePath.suffix]: [i = name.rfind('.')]; the suffix is [name[i:]] when
    [0 < i < len(name) - 1], and empty otherwise. *)
Definition suffix_at (n : str) : option nat :=
  match rfind 46 n with
  | Some i => if (0 <? i)%nat && (i <? length n - 1)%nat then Some i else None
  | None => None
  end.
Definition suffix (p : path) : str :=
  match suffix_at (name p) with Some i => drop i (name p) | None => [] end.
Definition stem (p : path) : str :=
  match suffix_at (name p) with Some i => take i (name p) | None => name p end.

Definition parent (p : path) : path := removelast p.

(** [d / s]: [s] is split at the slashes, empty and ["."] segments are
    dropped, and a leading slash makes the result absolute. *)
Definition segments (s : str) : list str :=
  filter (fun x => x ≠ [] ∧ x ≠ [46]) (split_on 47 s []).
Definition joinpath (d : path) (s : str) : path :=
  if startswith s [47] then segments s else d ++ segments s.

(** [str(p)]. *)
Definition to_str (p : path) : str := 47 :: join [47] p.

(** [p.relative_to(base)]: the components of [p] after [base], when [base]
    is a prefix of [p] ([None] for the ValueError). *)
Fixpoint relative_to (p base : path) : option (list str) :=
  match base, p with
  | [], _ => Some p
  | _ :: _, [] => None
  | b :: base', c :: p' => if bool_decide (b = c) then relative_to p' base' else None
  end.

End Path.

Export Path.

(** ** Exceptions *)

Inductive exn : Type :=
| FileNotFoundError | PermissionError | IsADirectoryError | NotADirectoryError
| FileExistsError | NoSpaceError | SameFileError | ShutilError
| TimeoutExpired | JSONDecodeError | UnicodeDecodeError
| ValueError | TypeError | KeyError | IndexError | OverflowError
| OtherError (what : str).

(** [isinstance(e, OSError)]. *)
Definition is_OSError (e : exn) : bool :=
  match e with
  | FileNotFoundError | PermissionError | IsADirectoryError | NotADirectoryError
  | FileExistsError | NoSpaceError | SameFileError | ShutilError => true
  | _ => false
  end.

(** [str(e)]. *)
Definition exn_str (e : exn) : str :=
  match e with
  | FileNotFoundError => py "No such file or directory"
  | PermissionError => py "Permission denied"
  | IsADirectoryError => py "Is a directory"
  | NotADirectoryError => py "Not a directory"
  | FileExistsError => py "File exists"
  | NoSpaceError => py "No space left on device"
  | SameFileError => py "are the same file"
  | ShutilError => py "Destination path already exists"
  | TimeoutExpired => py "timed out"
  | JSONDecodeError => py "Expecting value"
  | UnicodeDecodeError => py "codec can't decode byte"
  | ValueError => py "ValueError"
  | TypeError => py "TypeError"
  | KeyError => py "KeyError"
  | IndexError => py "IndexError"
  | OverflowError => py "OverflowError"
  | OtherError s => s
  end.

(** Code that returns or raises. *)
Inductive result (A : Type) : Type :=
| Ok (a : A)
| Raise (e : exn).
Arguments Ok {A} a.
Arguments Raise {A} e.

#[global] Instance result_ret : MRet result := fun A a => Ok a.
#[global] Instance result_bind : MBind result := fun A B f m =>
  match m with Ok a => f a | Raise e => Raise e end.

(** [try: m except <classes>: h]. *)
Definition try_except {A} (m : result A) (caught : exn -> bool) (h : exn -> result A)
  : result A :=
  match m with
  | Ok a => Ok a
  | Raise e => if caught e then h e else Raise e
  end.

(** [except Exception]. *)
Definition any_exception (e : exn) : bool := true.

(** ** The file tree *)

Inductive node : Type :=
| File (data : list Byte.byte) (mtime : Z) (readable : bool)
| Dir.

(** The part of the machine the program acts on: the tree, the bytes that
    can still be written to the volume, the paths at which the operating
    system refuses to create, overwrite or remove an entry, and the time
    stamp a newly written file gets. *)
Record World : Type := mkWorld {
  tree : gmap path node;
  free : nat;
  denied : gset path;
  clock : Z;
}.

Definition with_tree (w : World) (t : gmap path node) : World :=
  mkWorld t (free w) (denied w) (clock w).

Definition lookup_node (w : World) (p : path) : option node :=
  match p with [] => Some Dir | _ => tree w !! p end.

Definition exists_ (w : World) (p : path) : bool :=
  bool_decide (is_Some (lookup_node w p)).
Definition is_file (w : World) (p : path) : bool :=
  match lookup_node w p with Some (File _ _ _) => true | _ => false end.
Definition is_dir (w : World) (p : path) : bool :=
  match lookup_node w p with Some Dir => true | _ => false end.

(** [open(p, "rb").read()]. *)
Definition read_bytes (w : World) (p : path) : result (list Byte.byte) :=
  match lookup_node w p with
  | Some (File d _ r) => if r then Ok d else Raise PermissionError
  | Some Dir => Raise IsADirectoryError
  | None => Raise FileNotFoundError
  end.

(** [p.stat().st_mtime]. *)
Definition stat_mtime (w : World) (p : path) : result Z :=
  match lookup_node w p with
  | Some (File _ t _) => Ok t
  | Some Dir => Ok 0%Z
  | None => Raise FileNotFoundError
  end.

(** [p.mkdir(parents=True, exist_ok=True)], one component after the other;
    the directories made before a failure stay. *)
Fixpoint mkdir_from (w : World) (done_ : path) (todo : list str) : result unit * World :=
  match todo with
  | [] => (Ok tt, w)
  | c :: todo' =>
    let d := done_ ++ [c] in
    match tree w !! d with
    | Some Dir => mkdir_from w d todo'
    | Some (File _ _ _) =>
      (Raise (match todo' with [] => FileExistsError | _ => NotADirectoryError end), w)
    | None =>
      if bool_decide (d ∈ denied w) then (Raise PermissionError, w)
      else mkdir_from (with_tree w (<[d := Dir]> (tree w))) d todo'
    end
  end.
Definition mkdir_parents (w : World) (p : path) : result unit * World := mkdir_from w [] p.

(** [p.unlink(missing_ok=True)]. *)
Definition unlink_missing_ok (w : World) (p : path) : result unit * World :=
  match lookup_node w p with
  | None => (Ok tt, w)
  | Some Dir => (Raise IsADirectoryError, w)
  | Some (File _ _ _) =>
    if bool_decide (p ∈ denied w) then (Raise PermissionError, w)
    else (Ok tt, with_tree w (delete p (tree w)))
  end.

(** The entries directly inside [d], and the files anywhere below [d]
    (what [Path.iterdir] and [os.walk] enumerate; the order is the
    operating system's, the model fixes one). *)
Definition iterdir (w : World) (d : path) : list path :=
  filter (fun p => p ≠ [] ∧ parent p = d) (elements (dom (tree w))).
Definition walk_files (w : World) (root : path) : list path :=
  filter (fun p => is_Some (relative_to p root) ∧ p ≠ root ∧ is_file w p)
         (elements (dom (tree w))).

(** ** What the program reads from libraries and other programs *)

(** A parsed JSON document.  A number carries its Python rendering and
    whether it is non-zero. *)
Inductive json : Type :=
| JNull
| JBool (b : bool)
| JNum (repr : str) (nonzero : bool)
| JStr (s : str)
| JArr (items : list json)
| JObj (members : list (str * json)).

(** A value of an EXIF tag as PIL hands it out: a string, or something else
    with its [str()] rendering and its truth value. *)
Inductive exif_value : Type :=
| EStr (s : str)
| EOther (repr : str) (truthy : bool).

Definition datetime := Z.

(** A value of a hachoir metadata item. *)
Inductive hvalue : Type :=
| HDate (d : datetime)
| HStr (s : str)
| HNum (repr : str).

Record Env : Type := mkEnv {
  (** hashlib: the sha256 hex digest of a byte string *)
  sha256 : list Byte.byte -> str;
  (** datetime.strptime(s, fmt), datetime.fromtimestamp(t), d.strftime(fmt) *)
  strptime : str -> str -> result datetime;
  fromtimestamp : Z -> result datetime;
  strftime : datetime -> str -> str;
  (** int(float(s)) *)
  int_float : str -> result Z;
  (** json.loads(s), and repr() of a JSON list or object *)
  json_loads : str -> result json;
  json_repr : json -> str;
  (** PIL: is the library importable, Image.open(p).size, and the EXIF
      items of Image.open(p) with their tag names *)
  pil_available : bool;
  pil_size : path -> result (Z * Z);
  pil_exif : path -> result (list (str * exif_value));
  (** hachoir: is the library importable, and extractMetadata(createParser(p))
      ([None] when no parser or no metadata is found) *)
  hachoir_available : bool;
  hachoir_meta : path -> result (option (gmap str hvalue));
  (** subprocess.run(["exiftool", "-s", "-json", "-" + ",".join(tags), p], timeout=10):
      the return code and the captured standard output, or what it raises *)
  exiftool_run : path -> list str -> result (Z * str);
  (** device_suffixes.json next to the program: absent, unreadable, or its
      device_patterns in file order *)
  device_db : option (result (list (str * (list str * list str * list str))));
  (** Path.resolve(), and the working directory *)
  resolve : path -> path;
  cwd : path;
  (** what other actors do to the tree after a copy has returned and before
      the program looks at the destination again *)
  interference : World -> World;
}.

(** ** Module-level constants *)

Definition IMAGE_EXTENSIONS : list str :=
  map py [".jpg"; ".jpeg"; ".png"; ".heic"; ".heif"; ".gif"; ".bmp"; ".webp";
          ".raw"; ".cr2"; ".nef"; ".arw"; ".dng"]%string.
Definition VIDEO_EXTENSIONS : list str :=
  map py [".mp4"; ".mov"; ".mkv"; ".avi"; ".wmv"; ".webm"; ".m4v"; ".3gp";
          ".mpg"; ".mpeg"; ".mts"; ".360"; ".insv"; ".lrf"; ".osv"]%string.
Definition AUDIO_EXTENSIONS : list str :=
  map py [".mp3"; ".m4a"; ".wav"; ".aac"; ".flac"; ".ogg"; ".wma"]%string.
Definition PANORAMIC_EXTENSIONS : list str := map py [".360"; ".insv"; ".osv"]%string.
Definition LEAVE_IN_PLACE_EXTENSIONS : list str :=
  map py [".op"; ".ed"; ".lrprev"; ".lock"]%string.
Definition SUPER_COPY_CHUNK_SIZE : nat := 64 * 1024.

(** ** _compute_file_hash *)

(** The hashlib object is modelled by the bytes fed to it so far;
    [hexdigest] is the digest of their concatenation. *)
Fixpoint hash_chunks (fuel : nat) (rest fed : list Byte.byte) : list Byte.byte :=
  match fuel with
  | O => fed
  | S fuel' =>
    match take SUPER_COPY_CHUNK_SIZE rest with
    | [] => fed
    | chunk => hash_chunks fuel' (drop SUPER_COPY_CHUNK_SIZE rest) (fed ++ chunk)
    end
  end.

Definition _compute_file_hash (E : Env) (w : World) (p : path) : option str :=
  if negb (exists_ w p) || negb (is_file w p) then None
  else
    match read_bytes w p with
    | Ok data => Some (sha256 E (hash_chunks (S (length data)) data []))
    | Raise e => None
    end.

(** ** _sanitize_folder_name *)

(** The characters a folder name may not hold: less-than, greater-than,
    colon, double quote, slash, backslash, bar, question mark, star. *)
Definition is_forbidden (c : char) : bool :=
  bool_decide (c ∈ [60; 62; 58; 34; 47; 92; 124; 63; 42]).

Definition unknown_device_literal : str := py "未知设备".

Definition _sanitize_folder_name (name : str) : str :=
  if bool_decide (name = []) || bool_decide (strip name = []) then unknown_device_literal
  else
    let s := map (fun c => if is_forbidden c then 95 else c) (strip name) in
    if (80 <? length s)%nat then take 80 s else s.

(** ** _exiftool_get *)

Definition json_truthy (j : json) : bool :=
  match j with
  | JNull => false
  | JBool b => b
  | JNum _ nz => nz
  | JStr s => negb (bool_decide (s = []))
  | JArr l => match l with [] => false | _ => true end
  | JObj kv => match kv with [] => false | _ => true end
  end.

(** [data[0]]. *)
Definition json_item0 (j : json) : result json :=
  match j with
  | JArr (x :: _) => Ok x
  | JArr [] => Raise IndexError
  | JStr (c :: _) => Ok (JStr [c])
  | JStr [] => Raise IndexError
  | JObj _ => Raise KeyError
  | _ => Raise TypeError
  end.

(** [str(v)] for a JSON value other than null. *)
Definition json_str (E : Env) (j : json) : str :=
  match j with
  | JStr s => s
  | JNum r _ => r
  | JBool true => py "True"
  | JBool false => py "False"
  | JNull => py "None"
  | _ => json_repr E j
  end.

(** [{k: str(v).strip() for k, v in d.items() if v is not None and str(v).strip()}]. *)
Definition tag_dict (E : Env) (members : list (str * json)) : gmap str str :=
  omap (fun v =>
          match v with
          | JNull => None
          | _ => let s := strip (json_str E v) in
                 if bool_decide (s = []) then None else Some s
          end)
       (list_to_map (rev members) : gmap str json).

(** The exceptions the helper handles. *)
Definition exiftool_handled (e : exn) : bool :=
  match e with
  | FileNotFoundError | TimeoutExpired | JSONDecodeError => true
  | _ => false
  end.

Definition _exiftool_get (E : Env) (w : World) (p : path) (tags : list str)
    (use_exiftool : bool) : result (gmap str str) :=
  if negb use_exiftool || negb (exists_ w p) then Ok ∅
  else
    try_except
      (out ← exiftool_run E p tags;
       if negb (bool_decide (out.1 = 0%Z)) || bool_decide (out.2 = []) then Ok ∅
       else
         data ← json_loads E out.2;
         if negb (json_truthy data) then Ok ∅
         else
           first ← json_item0 data;
           match first with
           | JObj members => Ok (tag_dict E members)
           | _ => Ok ∅
           end)
      exiftool_handled
      (fun _ => Ok ∅).

(** [m.get(key, "")]. *)
Definition getd (m : gmap str str) (k : str) : str := default [] (m !! k).

(** ** Media kinds *)

(** The values of [MediaInfo.media_type]. *)
Inductive media_type : Type := image | video | panoramic_video | audio.

#[global] Instance media_type_eq_dec : EqDecision media_type.
Proof. solve_decision. Defined.

Definition is_video_kind (mt : media_type) : bool :=
  match mt with video | panoramic_video => true | _ => false end.

(** ** Hand-compiled regular expressions *)

Fixpoint span_digits (s : str) : str * str :=
  match s with
  | c :: s' => if is_digit c then let '(d, r) := span_digits s' in (c :: d, r) else ([], s)
  | [] => ([], [])
  end.

(** End of the subject, as [$] sees it: at the end or before a final newline. *)
Definition at_end (s : str) : bool := bool_decide (s = []) || bool_decide (s = [10]).

(** [re.match(r"^\d+(\.\d+)?$", v)]. *)
Definition re_match_number (v : str) : bool :=
  let '(d1, r1) := span_digits v in
  negb (bool_decide (d1 = [])) &&
  (at_end r1 ||
   match r1 with
   | 46 :: r2 => let '(d2, r3) := span_digits r2 in negb (bool_decide (d2 = [])) && at_end r3
   | _ => false
   end).

(** One attempt of [(\d+(?:\.\d+)?)\s*fps?] (ignoring case) at the start of
    [s]; the result is group 1. *)
Definition fps_tail (s : str) : bool :=
  match lstrip_by is_space s with
  | f :: p :: _ => (lower_char f =? 102) && (lower_char p =? 112)
  | _ => false
  end.
Definition fps_at (s : str) : option str :=
  let '(d1, r1) := span_digits s in
  if bool_decide (d1 = []) then None
  else
    match r1 with
    | 46 :: r2 =>
      let '(d2, r3) := span_digits r2 in
      if negb (bool_decide (d2 = [])) && fps_tail r3 then Some (d1 ++ 46 :: d2) else None
    | _ => if fps_tail r1 then Some d1 else None
    end.

(** [re.search(r"(\d+(?:\.\d+)?)\s*fps?", v, re.I)]: the leftmost attempt
    that succeeds. *)
Fixpoint re_search_fps (s : str) : option str :=
  match fps_at s with
  | Some g => Some g
  | None => match s with [] => None | _ :: s' => re_search_fps s' end
  end.

(** [re.match(r"^\d{4}-\d{2}-\d{2}$", s)]. *)
Definition re_match_date (s : str) : bool :=
  match s with
  | y1 :: y2 :: y3 :: y4 :: 45 :: m1 :: m2 :: 45 :: d1 :: d2 :: r =>
    forallb is_digit [y1; y2; y3; y4; m1; m2; d1; d2] && at_end r
  | _ => false
  end.

(** [re.sub] of the class of forbidden characters and white space, one or
    more times, by an underscore: every maximal run becomes one underscore. *)
Definition is_forbidden_or_space (c : char) : bool := is_forbidden c || is_space c.
Fixpoint sub_runs (s : str) (in_run : bool) : str :=
  match s with
  | [] => []
  | c :: s' =>
    if is_forbidden_or_space c
    then if in_run then sub_runs s' true else 95 :: sub_runs s' true
    else c :: sub_runs s' false
  end.

(** ** Probes *)

(** The first pair of keys whose values are both digit strings. *)
Fixpoint first_digit_pair (m : gmap str str) (keys : list (str * str)) : option (Z * Z) :=
  match keys with
  | [] => None
  | (wkey, hkey) :: keys' =>
    let w := strip (getd m wkey) in
    let h := strip (getd m hkey) in
    if isdigit w && isdigit h then Some (int_of_digits w, int_of_digits h)
    else first_digit_pair m keys'
  end.

(** [int(v)] for a hachoir value. *)
Definition hvalue_int (E : Env) (v : hvalue) : result Z :=
  match v with
  | HNum r => int_float E r
  | HStr s => if isdigit s then Ok (int_of_digits s) else Raise ValueError
  | HDate _ => Raise TypeError
  end.

Definition _get_resolution (E : Env) (w : World) (p : path) (mt : media_type)
    (use_exiftool : bool) : result (option Z * option Z) :=
  r1 ← (if bool_decide (mt = image) && pil_available E
        then try_except (sz ← pil_size E p; Ok (Some sz)) any_exception (fun _ => Ok None)
        else Ok None);
  match r1 with
  | Some (iw, ih) => Ok (Some iw, Some ih)
  | None =>
    r2 ← (if use_exiftool
          then m ← _exiftool_get E w p
                     (map py ["ImageWidth"; "ImageHeight"; "VideoFrameWidth"; "VideoFrameHeight"]%string)
                     true;
               Ok (first_digit_pair m
                     [(py "ImageWidth", py "ImageHeight");
                      (py "VideoFrameWidth", py "VideoFrameHeight")])
          else Ok None);
    match r2 with
    | Some (iw, ih) => Ok (Some iw, Some ih)
    | None =>
      r3 ← (if hachoir_available E && is_video_kind mt
            then try_except
                   (meta ← hachoir_meta E p;
                    match meta with
                    | Some meta =>
                      match meta !! py "width", meta !! py "height" with
                      | Some vw, Some vh =>
                        iw ← hvalue_int E vw; ih ← hvalue_int E vh; Ok (Some (iw, ih))
                      | _, _ => Ok None
                      end
                    | None => Ok None
                    end)
                   any_exception (fun _ => Ok None)
            else Ok None);
      match r3 with
      | Some (iw, ih) => Ok (Some iw, Some ih)
      | None => Ok (None, None)
      end
    end
  end.

(** The loop over the frame-rate keys of the exiftool answer. *)
Fixpoint fps_from_tags (E : Env) (m : gmap str str) (keys : list str) : result (option str) :=
  match keys with
  | [] => Ok None
  | key :: keys' =>
    let v := strip (getd m key) in
    if bool_decide (v = []) then fps_from_tags E m keys'
    else
      let v := replace_char 44 46 v in
      if re_match_number v then n ← int_float E v; Ok (Some (str_of_Z n ++ py "fps"))
      else
        match re_search_fps v with
        | Some g => n ← int_float E g; Ok (Some (str_of_Z n ++ py "fps"))
        | None => fps_from_tags E m keys'
        end
  end.

Definition _get_frame_rate (E : Env) (w : World) (p : path) (mt : media_type)
    (use_exiftool : bool) : result str :=
  if negb (is_video_kind mt) then Ok []
  else
    r1 ← (if use_exiftool
          then m ← _exiftool_get E w p (map py ["VideoFrameRate"; "FrameRate"]%string) true;
               fps_from_tags E m (map py ["VideoFrameRate"; "FrameRate"]%string)
          else Ok None);
    match r1 with
    | Some s => Ok s
    | None =>
      r2 ← (if hachoir_available E
            then try_except
                   (meta ← hachoir_meta E p;
                    match meta with
                    | Some meta =>
                      match meta !! py "frame_rate" with
                      | Some r => n ← hvalue_int E r; Ok (Some (str_of_Z n ++ py "fps"))
                      | None => Ok None
                      end
                    | None => Ok None
                    end)
                   any_exception (fun _ => Ok None)
            else Ok None);
      match r2 with
      | Some s => Ok s
      | None => Ok []
      end
    end.

(** [isinstance(e, ValueError)]. *)
Definition is_ValueError (e : exn) : bool :=
  match e with
  | ValueError | UnicodeDecodeError | JSONDecodeError => true
  | _ => false
  end.

Definition exif_truthy (v : exif_value) : bool :=
  match v with EStr s => negb (bool_decide (s = [])) | EOther _ t => t end.
Definition exif_str (v : exif_value) : str :=
  match v with EStr s => s | EOther r _ => r end.

(** [for fmt in fmts: try: return strptime(s, fmt) except ValueError: continue]. *)
Fixpoint try_formats (E : Env) (s : str) (fmts : list str) : result (option datetime) :=
  match fmts with
  | [] => Ok None
  | fmt :: fmts' =>
    match strptime E s fmt with
    | Ok d => Ok (Some d)
    | Raise e => if is_ValueError e then try_formats E s fmts' else Raise e
    end
  end.

Definition exif_date_tags : list str :=
  map py ["DateTimeOriginal"; "DateTimeDigitized"; "DateTime"]%string.

Fixpoint date_from_exif_items (E : Env) (items : list (str * exif_value))
  : result (option datetime) :=
  match items with
  | [] => Ok None
  | (tag, value) :: items' =>
    if bool_decide (tag ∈ exif_date_tags) && exif_truthy value
    then
      r ← try_formats E (take 19 (replace_char 32 32 (replace_char 45 58 (exif_str value))))
             (map py ["%Y:%m:%d %H:%M:%S"; "%Y-%m-%d %H:%M:%S"]%string);
      match r with
      | Some d => Ok (Some d)
      | None => date_from_exif_items E items'
      end
    else date_from_exif_items E items'
  end.

Definition _date_from_exif_pillow (E : Env) (p : path) : result (option datetime) :=
  if negb (pil_available E) then Ok None
  else try_except (items ← pil_exif E p; date_from_exif_items E items)
                  any_exception (fun _ => Ok None).

Fixpoint date_from_hachoir_keys (E : Env) (meta : gmap str hvalue) (keys : list str)
  : result (option datetime) :=
  match keys with
  | [] => Ok None
  | key :: keys' =>
    match meta !! key with
    | Some (HDate d) => Ok (Some d)
    | Some (HStr s) =>
      r ← try_formats E (replace_char_n 58 45 2 (take 19 s))
             (map py ["%Y-%m-%d %H:%M:%S"; "%Y:%m:%d %H:%M:%S"; "%Y-%m-%d"]%string);
      match r with
      | Some d => Ok (Some d)
      | None => date_from_hachoir_keys E meta keys'
      end
    | _ => date_from_hachoir_keys E meta keys'
    end
  end.

Definition _date_from_hachoir (E : Env) (p : path) : result (option datetime) :=
  if negb (hachoir_available E) then Ok None
  else
    try_except
      (meta ← hachoir_meta E p;
       match meta with
       | None => Ok None
       | Some meta =>
         date_from_hachoir_keys E meta
           (map py ["creation_date"; "creation-date"; "creation date"; "Creation date"]%string)
       end)
      any_exception (fun _ => Ok None).

(** The loop over the EXIF items that collects Make and Model. *)
Fixpoint make_model (items : list (str * exif_value)) (make model : str) : str * str :=
  match items with
  | [] => (make, model)
  | (tag, value) :: items' =>
    if bool_decide (tag = py "Make") && exif_truthy value
    then make_model items' (strip (exif_str value)) model
    else if bool_decide (tag = py "Model") && exif_truthy value
    then make_model items' make (strip (exif_str value))
    else make_model items' make model
  end.

Definition _device_from_exif_pillow (E : Env) (p : path) : result str :=
  if negb (pil_available E) then Ok []
  else
    try_except
      (items ← pil_exif E p;
       let '(make, model) := make_model items [] [] in
       if negb (bool_decide (make = [])) || negb (bool_decide (model = []))
       then Ok (strip (make ++ [32] ++ model))
       else Ok [])
      any_exception (fun _ => Ok []).

Definition _is_panoramic_by_path (p : path) (video_ext panoramic_ext : gset str) : bool :=
  let ext := lower (suffix p) in
  if bool_decide (ext ∈ panoramic_ext) then true
  else if negb (bool_decide (ext ∈ video_ext)) then false
  else
    let name := lower (stem p) in
    contains (py "360") name || contains (py "panoram") name ||
    contains (py "theta") name || contains (py "insta360") name.

Definition _is_panoramic_by_metadata (E : Env) (w : World) (p : path) (use_exiftool : bool)
  : result bool :=
  m ← _exiftool_get E w p
        (map py ["ProjectionType"; "StitchingSoftware"; "Make"; "Model"]%string) use_exiftool;
  if bool_decide (lower (getd m (py "ProjectionType"))
                    ∈ [py "equirectangular"; py "equirectangular "])
  then Ok true
  else if contains (py "360") (getd m (py "Make")) || contains (py "360") (getd m (py "Model"))
  then Ok true
  else if contains (py "theta") (lower (getd m (py "Make")))
          || contains (py "insta360") (lower (getd m (py "Make")))
  then Ok true
  else Ok false.

(** ** Configuration *)

Record Config : Type := mkConfig {
  image_extensions : list str;
  video_extensions : list str;
  audio_extensions : list str;
  leave_in_place_extensions : list str;
  related_same_stem : bool;
  date_fallback : str;
  device_unknown_name : str;
  date_format : str;
  video_subfolder : str;
  image_subfolder : str;
  audio_subfolder : str;
  panoramic_subfolder : str;
  device_subfolder : bool;
  move_files : bool;
  duplicate_strategy : str;
  delete_empty_folders : bool;
  use_exiftool : bool;
  unified_naming : bool;
}.

(** The defaults of [Config.load_config]. *)
Definition default_config : Config := {|
  image_extensions := IMAGE_EXTENSIONS;
  video_extensions := VIDEO_EXTENSIONS;
  audio_extensions := AUDIO_EXTENSIONS;
  leave_in_place_extensions := LEAVE_IN_PLACE_EXTENSIONS;
  related_same_stem := true;
  date_fallback := py "mtime";
  device_unknown_name := unknown_device_literal;
  date_format := py "%Y-%m-%d";
  video_subfolder := py "视频";
  image_subfolder := py "图片";
  audio_subfolder := py "音频";
  panoramic_subfolder := py "全景视频";
  device_subfolder := true;
  move_files := true;
  duplicate_strategy := py "rename";
  delete_empty_folders := false;
  use_exiftool := true;
  unified_naming := true;
|}.

(** ** MediaOrganizer *)

(** The attributes [__init__] computes from the configuration. *)
Record Organizer : Type := mkOrganizer {
  config : Config;
  image_ext : gset str;
  video_ext : gset str;
  audio_ext : gset str;
  leave_ext : gset str;
}.

Definition lower_set (l : list str) : gset str := list_to_set (map lower l).

Definition init (cfg : Config) : Organizer := {|
  config := cfg;
  image_ext := lower_set (image_extensions cfg);
  video_ext := lower_set (video_extensions cfg) ∪ lower_set VIDEO_EXTENSIONS;
  audio_ext := lower_set (audio_extensions cfg);
  leave_ext := lower_set (leave_in_place_extensions cfg);
|}.

Definition should_leave_in_place (o : Organizer) (p : path) : bool :=
  let ext := lower (suffix p) in
  if bool_decide (ext ∈ leave_ext o) then true
  else if contains [46] (name p) &&
          (endswith (lower (name p)) (py ".fg.op") || endswith (lower (name p)) (py ".fg.ed"))
  then true
  else false.

Definition get_media_type (E : Env) (w : World) (o : Organizer) (p : path)
  : result (option media_type) :=
  let ext := lower (suffix p) in
  if bool_decide (ext ∈ image_ext o) then Ok (Some image)
  else if bool_decide (ext ∈ audio_ext o) then Ok (Some audio)
  else if negb (bool_decide (ext ∈ video_ext o)) then Ok None
  else if _is_panoramic_by_path p (video_ext o) (list_to_set PANORAMIC_EXTENSIONS)
  then Ok (Some panoramic_video)
  else if use_exiftool (config o)
  then
    (b ← _is_panoramic_by_metadata E w p true;
     if b : bool then Ok (Some panoramic_video) else Ok (Some video))
  else Ok (Some video).

(** The loop over the date keys of the exiftool answer: the first key that
    is present, non-empty and parses. *)
Fixpoint date_from_tags (E : Env) (m : gmap str str) (keys : list str)
  : result (option datetime) :=
  match keys with
  | [] => Ok None
  | key :: keys' =>
    match m !! key with
    | Some v =>
      if bool_decide (v = []) then date_from_tags E m keys'
      else
        let s := take 19 (replace_char 32 32 (replace_char 45 58 v)) in
        match strptime E s (py "%Y:%m:%d %H:%M:%S") with
        | Ok d => Ok (Some d)
        | Raise e => if is_ValueError e then date_from_tags E m keys' else Raise e
        end
    | None => date_from_tags E m keys'
    end
  end.

(** [date_fallback == "mtime"]: the modification time, unless [stat] fails. *)
Definition mtime_fallback (E : Env) (w : World) (o : Organizer) (p : path)
  : result (option datetime) :=
  if bool_decide (date_fallback (config o) = py "mtime")
  then try_except (t ← stat_mtime w p; d ← fromtimestamp E t; Ok (Some d))
                  is_OSError (fun _ => Ok None)
  else Ok None.

Definition get_shoot_date (E : Env) (w : World) (o : Organizer) (p : path) (mt : media_type)
  : result (option datetime) :=
  if bool_decide (mt = image)
  then
    dt ← _date_from_exif_pillow E p;
    dt ← (match dt with
          | None =>
            if use_exiftool (config o)
            then m ← _exiftool_get E w p (map py ["DateTimeOriginal"; "CreateDate"]%string) true;
                 date_from_tags E m (map py ["DateTimeOriginal"; "CreateDate"]%string)
            else Ok None
          | Some d => Ok (Some d)
          end);
    match dt with
    | Some d => Ok (Some d)
    | None => mtime_fallback E w o p
    end
  else
    dt ← (if use_exiftool (config o)
          then m ← _exiftool_get E w p
                     (map py ["CreateDate"; "DateTimeOriginal"; "MediaCreateDate"]%string) true;
               date_from_tags E m
                 (map py ["CreateDate"; "DateTimeOriginal"; "MediaCreateDate"]%string)
          else Ok None);
    match dt with
    | Some d => Ok (Some d)
    | None =>
      dt ← _date_from_hachoir E p;
      match dt with
      | Some d => Ok (Some d)
      | None => mtime_fallback E w o p
      end
    end.

(** [_load_device_suffixes_db] followed by [db.get("device_patterns", {})]. *)
Definition device_patterns (E : Env) : list (str * (list str * list str * list str)) :=
  match device_db E with
  | Some (Ok pats) => pats
  | _ => []
  end.

Fixpoint match_patterns (filename ext : str)
    (pats : list (str * (list str * list str * list str))) : option str :=
  match pats with
  | [] => None
  | (device_name, (extensions, prefixes, subs)) :: pats' =>
    let ext_ok := bool_decide (extensions = []) || bool_decide (ext ∈ extensions) in
    if existsb (fun prefix => startswith filename (upper prefix) && ext_ok) prefixes
    then Some device_name
    else if existsb (fun sub => contains (upper sub) filename && ext_ok) subs
    then Some device_name
    else match_patterns filename ext pats'
  end.

Definition _device_from_filename_pattern (E : Env) (p : path) : option str :=
  match_patterns (upper (stem p)) (lower (suffix p)) (device_patterns E).

Definition dji : str := py "大疆".

(** The device from the Make and Model tags of exiftool. *)
Definition exiftool_device (E : Env) (w : World) (p : path) : result str :=
  m ← _exiftool_get E w p (map py ["Make"; "Model"]%string) true;
  Ok (strip (strip (getd m (py "Make")) ++ [32] ++ strip (getd m (py "Model")))).

Definition pattern_or_unknown (E : Env) (o : Organizer) (p : path) : str :=
  match _device_from_filename_pattern E p with
  | Some dev => if bool_decide (dev = []) then device_unknown_name (config o)
                else _sanitize_folder_name dev
  | None => device_unknown_name (config o)
  end.

Definition get_device (E : Env) (w : World) (o : Organizer) (p : path) (mt : media_type)
  : result str :=
  let unknown := device_unknown_name (config o) in
  if negb (bool_decide (mt ∈ [image; video; panoramic_video])) then Ok unknown
  else if contains (py "DJI") (upper (stem p)) || contains dji (stem p) then Ok dji
  else if is_video_kind mt && bool_decide (lower (suffix p) = py ".lrf") then Ok dji
  else if bool_decide (mt = image)
  then
    dev ← _device_from_exif_pillow E p;
    dev ← (if bool_decide (dev = []) && use_exiftool (config o)
           then exiftool_device E w p else Ok dev);
    if bool_decide (dev = []) then Ok (pattern_or_unknown E o p)
    else Ok (_sanitize_folder_name dev)
  else
    dev ← (if use_exiftool (config o) then exiftool_device E w p else Ok []);
    if bool_decide (dev = []) then Ok (pattern_or_unknown E o p)
    else Ok (_sanitize_folder_name dev).

Definition find_related_files (w : World) (o : Organizer) (primary : path)
  : result (list path) :=
  if negb (related_same_stem (config o)) then Ok []
  else if negb (is_dir w (parent primary)) then Raise FileNotFoundError
  else
    let st := stem primary in
    Ok (filter
          (fun f =>
             is_file w f ∧ f ≠ primary ∧ should_leave_in_place o f = false ∧
             (stem f = st
              ∨ startswith st (stem f ++ [95]) || startswith (stem f) (st ++ [95]) = true
              ∨ startswith st (stem f ++ [32]) || startswith (stem f) (st ++ [32]) = true))
          (iterdir w (parent primary))).

(** The fields of [MediaInfo] that the placement reads. *)
Record MediaInfo : Type := mkMediaInfo {
  mi_path : path;
  mi_media_type : media_type;
  mi_shoot_date : option datetime;
  mi_device : str;
  mi_date_str : str;
}.

Definition build_target_dir (o : Organizer) (info : MediaInfo) (output_root : path) : path :=
  let cfg := config o in
  let sub :=
    match mi_media_type info with
    | image => image_subfolder cfg
    | panoramic_video => panoramic_subfolder cfg
    | video => video_subfolder cfg
    | audio => audio_subfolder cfg
    end in
  let p := joinpath (joinpath output_root (mi_date_str info)) sub in
  if device_subfolder cfg && bool_decide (mi_media_type info ∈ [image; video; panoramic_video])
  then joinpath p (_sanitize_folder_name (mi_device info))
  else p.

(** [x or fallback] for strings. *)
Definition or_else (s fallback : str) : str := if bool_decide (s = []) then fallback else s.

Definition _build_unified_basename (device date_str resolution_str fps_str : str) : str :=
  let safe := or_else (sub_runs (strip device) false) unknown_device_literal in
  let date_safe := or_else (sub_runs (strip date_str) false) (py "无日期") in
  let res_trim := strip resolution_str in
  let fps_trim := strip fps_str in
  let parts :=
    [safe; date_safe]
    ++ (if negb (bool_decide (res_trim = [])) && negb (bool_decide (res_trim = py "未知"))
        then [sub_runs res_trim false] else [])
    ++ (if negb (bool_decide (fps_trim = [])) then [sub_runs fps_trim false] else []) in
  take 120 (strip_chars [95] (join [95] parts)).

(** The loop [for i in range(1, 9999)] of resolve_destination; [dest] is the
    variable the loop assigns, returned as it stands when no name is free. *)
Fixpoint probe_suffixes (w : World) (target_dir : path) (stem_ ext : str)
    (range : list nat) (dest : path) : option path :=
  match range with
  | [] => Some dest
  | i :: range' =>
    let dest := joinpath target_dir (stem_ ++ [95] ++ str_of_nat i ++ ext) in
    if negb (exists_ w dest) then Some dest
    else probe_suffixes w target_dir stem_ ext range' dest
  end.

Definition resolve_destination (E : Env) (w : World) (o : Organizer)
    (target_dir filepath : path) (unified_basename : option str) : option path :=
  let stem_ := match unified_basename with Some u => u | None => stem filepath end in
  let ext := suffix filepath in
  let dest := joinpath target_dir (stem_ ++ ext) in
  if negb (exists_ w dest) then Some dest
  else if bool_decide (resolve E dest = resolve E filepath) then Some dest
  else if bool_decide (duplicate_strategy (config o) = py "overwrite") then Some dest
  else probe_suffixes w target_dir stem_ ext (seq 1 9998) dest.

(** ** shutil *)

(** Where [copy2] and [move] write when the destination is a directory. *)
Definition real_dst (w : World) (src dst : path) : path :=
  if is_dir w dst then dst ++ [name src] else dst.

(** [shutil.copy2(src, dst)].  A write that does not fit on the volume
    leaves the bytes that did fit; a successful copy keeps the source's
    time stamp and mode. *)
Definition copy2 (E : Env) (w : World) (src dst : path) : result unit * World :=
  let rd := real_dst w src dst in
  if exists_ w src && exists_ w rd && bool_decide (resolve E src = resolve E rd)
  then (Raise SameFileError, w)
  else
    match read_bytes w src, lookup_node w src with
    | Ok data, Some (File _ t r) =>
      if negb (is_dir w (parent rd)) then (Raise FileNotFoundError, w)
      else if is_dir w rd then (Raise IsADirectoryError, w)
      else if bool_decide (rd ∈ denied w) then (Raise PermissionError, w)
      else if (free w <? length data)%nat
      then (Raise NoSpaceError,
            mkWorld (<[rd := File (take (free w) data) (clock w) true]> (tree w))
                    0 (denied w) (clock w))
      else (Ok tt,
            interference E
              (mkWorld (<[rd := File data t r]> (tree w))
                       (free w - length data) (denied w) (clock w)))
    | Raise e, _ => (Raise e, w)
    | _, _ => (Raise FileNotFoundError, w)
    end.

(** [shutil.move(src, dst)] within one volume. *)
Definition move (w : World) (src dst : path) : result unit * World :=
  let rd := real_dst w src dst in
  if is_dir w dst && exists_ w rd then (Raise ShutilError, w)
  else
    match tree w !! src with
    | None => (Raise FileNotFoundError, w)
    | Some n =>
      if negb (is_dir w (parent rd)) then (Raise FileNotFoundError, w)
      else if bool_decide (src ∈ denied w) || bool_decide (rd ∈ denied w)
      then (Raise PermissionError, w)
      else (Ok tt, with_tree w (<[rd := n]> (delete src (tree w))))
    end.

(** ** The state the pipelines thread *)

(** One call of the progress callback: phase, message, current, total. *)
Definition event : Type := str * str * option Z * option Z.

(** One entry of the organize report: action, source, destination or reason. *)
Definition entry : Type := str * str * str.

Record State : Type := mkState {
  world : World;
  processed : gset str;
  events : list event;
  report : list entry;
}.

Definition M (A : Type) : Type := State -> result A * State.

#[global] Instance M_ret : MRet M := fun A a s => (Ok a, s).
#[global] Instance M_bind : MBind M := fun A B f m s =>
  match m s with
  | (Ok a, s') => f a s'
  | (Raise e, s') => (Raise e, s')
  end.

Definition gets {A} (f : State -> A) : M A := fun s => (Ok (f s), s).
Definition lift {A} (r : result A) : M A := fun s => (r, s).
Definition on_world (f : World -> result unit * World) : M unit := fun s =>
  let '(r, w') := f (world s) in (r, mkState w' (processed s) (events s) (report s)).
Definition mark_processed (key : str) : M unit := fun s =>
  (Ok tt, mkState (world s) ({[key]} ∪ processed s) (events s) (report s)).
Definition emit (ev : event) : M unit := fun s =>
  (Ok tt, mkState (world s) (processed s) (events s ++ [ev]) (report s)).
Definition probe {A} (f : World -> result A) : M A := fun s => (f (world s), s).
(** [if report_list is not None: report_list.append(e)]. *)
Definition append_report (report_list : bool) (e : entry) : M unit := fun s =>
  (Ok tt, if report_list
          then mkState (world s) (processed s) (events s) (report s ++ [e])
          else s).

(** [try: m except <classes> as e: h e]; what [m] did before raising stays. *)
Definition try_M {A} (m : M A) (caught : exn -> bool) (h : exn -> M A) : M A := fun s =>
  match m s with
  | (Ok a, s') => (Ok a, s')
  | (Raise e, s') => if caught e then h e s' else (Raise e, s')
  end.

(** A progress callback is an observer: it is modelled by the call it
    receives, if any.  The caller's own callback receives what it is given. *)
Definition callback : Type := str -> str -> option Z -> option Z -> option event.

(** [if progress_cb: try: progress_cb(...) except Exception: pass]: the call
    is recorded, and nothing the callback raises reaches the caller. *)
Definition call_cb (progress_cb : option callback) (ph msg : str) (cur total : option Z)
  : M unit :=
  match progress_cb with
  | Some cb => match cb ph msg cur total with Some ev => emit ev | None => mret tt end
  | None => mret tt
  end.

(** ** _copy_file_with_hash_verify *)

(** [try: dest.unlink(missing_ok=True) except OSError: pass]. *)
Definition unlink_quietly (dest : path) : M unit :=
  try_M (on_world (fun w => unlink_missing_ok w dest)) is_OSError (fun _ => mret tt).

(** [try: dest.parent.mkdir(parents=True, exist_ok=True); shutil.copy2(src, dest)
    except Exception as e: ...]: the exception, if any. *)
Definition try_copy (E : Env) (src dest : path) : M (option exn) :=
  try_M (on_world (fun w => mkdir_parents w (parent dest));;
         on_world (fun w => copy2 E w src dest);;
         mret None)
        any_exception (fun e => mret (Some e)).

Definition _copy_file_with_hash_verify (E : Env) (src dest : path) (dry_run : bool)
    (progress_cb : option callback) : M (bool * option str) :=
  let _cb ph msg := call_cb progress_cb (py ph) msg None None in
  if dry_run then mret (true, None)
  else
    _cb "hash_src" (py "计算源文件哈希: " ++ name src);;
    src_hash ← gets (fun s => _compute_file_hash E (world s) src);
    match src_hash with
    | None =>
      _cb "verify_fail" (py "失败: 无法计算源文件哈希 - " ++ name src);;
      mret (false, Some (py "无法计算源文件哈希"))
    | Some src_hash =>
      _cb "copy" (py "拷贝中: " ++ name src);;
      copied ← try_copy E src dest;
      match copied with
      | Some e =>
        _cb "verify_fail" (py "失败: 拷贝异常 - " ++ name src);;
        mret (false, Some (exn_str e))
      | None =>
        _cb "hash_dest" (py "校验目标哈希: " ++ name dest);;
        dest_hash ← gets (fun s => _compute_file_hash E (world s) dest);
        match dest_hash with
        | None =>
          unlink_quietly dest;;
          _cb "verify_fail" (py "失败: 无法计算目标哈希 - " ++ name dest);;
          mret (false, Some (py "无法计算目标文件哈希"))
        | Some dest_hash =>
          if negb (bool_decide (src_hash = dest_hash))
          then
            unlink_quietly dest;;
            _cb "verify_fail" (py "失败: 哈希不一致 - " ++ name src);;
            mret (false, Some (py "哈希校验失败: 源=" ++ take 16 src_hash ++ py "... 目标="
                                ++ take 16 dest_hash ++ py "..."))
          else
            _cb "verify_ok" (py "校验通过: " ++ name src);;
            mret (true, None)
        end
      end
    end.

(** ** process_file *)

(** [date_str]: the formatted shooting date, or the no-date folder name. *)
Definition date_str_of (E : Env) (o : Organizer) (shoot_date : option datetime) : str :=
  match shoot_date with
  | Some d => strftime E d (date_format (config o))
  | None => py "无日期"
  end.

(** [f"{w}x{h}" if (w and h) else ""]. *)
Definition res_str_of (wh : option Z * option Z) : str :=
  match wh with
  | (Some w, Some h) =>
    if negb (bool_decide (w = 0%Z)) && negb (bool_decide (h = 0%Z))
    then str_of_Z w ++ [120] ++ str_of_Z h else []
  | _ => []
  end.

(** The unified base name of a primary file, when unified naming is on. *)
Definition unified_basename_of (E : Env) (w : World) (o : Organizer) (p : path)
    (mt : media_type) (device date_str : str) : result (option str) :=
  if unified_naming (config o)
  then
    wh ← _get_resolution E w p mt (use_exiftool (config o));
    fps_str ← _get_frame_rate E w p mt (use_exiftool (config o));
    Ok (Some (_build_unified_basename device date_str (res_str_of wh) fps_str))
  else Ok None.

(** The test that lets an already processed file be skipped: its resolved
    path lies below the resolved output root, at least three components
    deep, the first one a date and the third one not the folder of the
    unknown device. *)
Definition already_sorted (E : Env) (o : Organizer) (filepath output_root : path) : bool :=
  let unknown_dev := _sanitize_folder_name (device_unknown_name (config o)) in
  match relative_to (resolve E filepath) (resolve E output_root) with
  | Some (p0 :: p1 :: p2 :: rest) =>
    re_match_date p0 && negb (bool_decide (p2 = unknown_dev))
  | _ => false
  end.

(** [try: mkdir; shutil.move except Exception as e: ...]: the exception, if any. *)
Definition try_move (target_dir src dest : path) : M (option exn) :=
  try_M (on_world (fun w => mkdir_parents w target_dir);;
         on_world (fun w => move w src dest);;
         mret None)
        any_exception (fun e => mret (Some e)).

(** The loop over the related files of a primary file. *)
Fixpoint move_related (E : Env) (o : Organizer) (target_dir : path)
    (unified_basename : option str) (dry_run report_list : bool) (related : list path)
  : M unit :=
  match related with
  | [] => mret tt
  | r :: related' =>
    let r_key := to_str (resolve E r) in
    is_done ← gets (fun s => bool_decide (r_key ∈ processed s));
    if is_done : bool then move_related E o target_dir unified_basename dry_run report_list related'
    else
      r_dest ← gets (fun s => resolve_destination E (world s) o target_dir r unified_basename);
      match r_dest with
      | None =>
        mark_processed r_key;;
        move_related E o target_dir unified_basename dry_run report_list related'
      | Some r_dest =>
        (if negb dry_run && move_files (config o)
         then
           moved ← try_move target_dir r r_dest;
           match moved with
           | None => append_report report_list (py "related", to_str r, to_str r_dest)
           | Some e => append_report report_list (py "fail_related", to_str r, exn_str e)
           end
         else append_report report_list (py "related", to_str r, to_str r_dest));;
        mark_processed r_key;;
        move_related E o target_dir unified_basename dry_run report_list related'
      end
  end.

(** The body of process_file after the processed-set test: classification,
    dating, placement and the moves. *)
Definition classify_and_place (E : Env) (o : Organizer) (filepath output_root : path)
    (dry_run report_list : bool) : M bool :=
  let path_key := to_str (resolve E filepath) in
  media_type ← probe (fun w => get_media_type E w o filepath);
  match media_type with
  | None => mret false
  | Some media_type =>
    shoot_date ← probe (fun w => get_shoot_date E w o filepath media_type);
    let date_str := date_str_of E o shoot_date in
    device ← probe (fun w => get_device E w o filepath media_type);
    let info := mkMediaInfo filepath media_type shoot_date device date_str in
    let target_dir := build_target_dir o info output_root in
    unified_basename ←
      probe (fun w => unified_basename_of E w o filepath media_type device date_str);
    primary_dest ←
      gets (fun s => resolve_destination E (world s) o target_dir filepath unified_basename);
    match primary_dest with
    | None =>
      append_report report_list (py "skip", to_str filepath, py "已存在");;
      mark_processed path_key;;
      mret true
    | Some primary_dest =>
      related ← probe (fun w => find_related_files w o filepath);
      moved ← (if negb dry_run && move_files (config o)
               then
                 moved ← try_move target_dir filepath primary_dest;
                 match moved with
                 | None =>
                   append_report report_list (py "move", to_str filepath, to_str primary_dest);;
                   mret true
                 | Some e =>
                   append_report report_list (py "fail", to_str filepath, exn_str e);;
                   mret false
                 end
               else
                 append_report report_list (py "move", to_str filepath, to_str primary_dest);;
                 mret true);
      if moved : bool
      then
        move_related E o target_dir unified_basename dry_run report_list related;;
        mark_processed path_key;;
        mret true
      else mret false
    end
  end.

Definition process_file (E : Env) (o : Organizer) (filepath output_root : path)
    (dry_run report_list : bool) : M bool :=
  let path_key := to_str (resolve E filepath) in
  is_done ← gets (fun s => bool_decide (path_key ∈ processed s));
  if (is_done : bool) && already_sorted E o filepath output_root
  then
    append_report report_list (py "already_processed", to_str filepath, py "此前已整理");;
    mret true
  else classify_and_place E o filepath output_root dry_run report_list.

(** ** Collecting, ordering and deduplicating the media files *)

(** [Path(str(path).strip().rstrip("/")).resolve()] (the POSIX branch). *)
Definition _normalize_source_path (E : Env) (p : path) : path :=
  let s := rstrip_by (fun c => c =? 47) (strip (to_str p)) in
  resolve E (if bool_decide (s = []) then cwd E else segments s).

(** The loop of _collect_media_files_recursive; the list is the one the
    loop appends to, so it is there whether or not the loop raises. *)
Fixpoint collect_loop (E : Env) (w : World) (o : Organizer) (files collected : list path)
  : result unit * list path :=
  match files with
  | [] => (Ok tt, collected)
  | p :: files' =>
    if negb (is_file w p) then collect_loop E w o files' collected
    else if should_leave_in_place o p then collect_loop E w o files' collected
    else
      match get_media_type E w o p with
      | Ok (Some _) => collect_loop E w o files' (collected ++ [p])
      | Ok None => collect_loop E w o files' collected
      | Raise e => (Raise e, collected)
      end
  end.

Definition _collect_media_files_recursive (E : Env) (w : World) (o : Organizer) (root : path)
  : result (list path) :=
  let root := _normalize_source_path E root in
  if negb (is_dir w root) then Ok []
  else
    match collect_loop E w o (walk_files w root) [] with
    | (Ok _, collected) => Ok collected
    | (Raise e, collected) => if is_OSError e then Ok collected else Raise e
    end.

(** The order of strings and of paths (component by component). *)
Fixpoint str_cmp (a b : str) : comparison :=
  match a, b with
  | [], [] => Eq
  | [], _ :: _ => Lt
  | _ :: _, [] => Gt
  | x :: a', y :: b' => match x ?= y with Eq => str_cmp a' b' | c => c end
  end.
Fixpoint path_cmp (a b : list str) : comparison :=
  match a, b with
  | [], [] => Eq
  | [], _ :: _ => Lt
  | _ :: _, [] => Gt
  | x :: a', y :: b' => match str_cmp x y with Eq => path_cmp a' b' | c => c end
  end.

(** The sort key [(x.parent, x.name)]. *)
Definition key_leb (a b : path) : bool :=
  match path_cmp (parent a) (parent b) with
  | Lt => true
  | Gt => false
  | Eq => match str_cmp (name a) (name b) with Gt => false | _ => true end
  end.

(** The loop that keeps the first file of each (parent, stem). *)
Fixpoint dedupe (files : list path) (seen_stem_dir : gset (path * str)) : list path :=
  match files with
  | [] => []
  | p :: files' =>
    let stem_dir := (parent p, stem p) in
    if bool_decide (stem_dir ∈ seen_stem_dir) then dedupe files' seen_stem_dir
    else p :: dedupe files' ({[stem_dir]} ∪ seen_stem_dir)
  end.

Definition key_le (a b : path) : Prop := Is_true (key_leb a b).
#[global] Instance key_le_dec : RelDecision key_le.
Proof. intros a b. unfold key_le. apply _. Defined.

Definition to_process_of (collected : list path) : list path :=
  dedupe (merge_sort key_le collected) ∅.

(** ** _remove_empty_dirs *)

(** The directories strictly below [root], deepest first: an order in
    which [os.walk(topdown=False)] may visit them. *)
Definition deeper (a b : path) : Prop := (length b <= length a)%nat.
#[global] Instance deeper_dec : RelDecision deeper.
Proof. intros a b. unfold deeper. apply _. Defined.

Definition dirs_bottom_up (w : World) (root : path) : list path :=
  merge_sort deeper
    (filter (fun p => is_Some (relative_to p root) ∧ p ≠ root ∧ is_dir w p)
            (elements (dom (tree w)))).

(** [d.rmdir()]. *)
Definition rmdir (w : World) (d : path) : result unit * World :=
  if bool_decide (d ∈ denied w) then (Raise PermissionError, w)
  else if negb (bool_decide (iterdir w d = [])) then (Raise (OtherError (py "Directory not empty")), w)
  else (Ok tt, with_tree w (delete d (tree w))).

Fixpoint remove_empty_loop (dirs : list path) (removed : nat) : M nat :=
  match dirs with
  | [] => mret removed
  | d :: dirs' =>
    empty ← gets (fun s => is_dir (world s) d && bool_decide (iterdir (world s) d = []));
    if empty : bool
    then
      ok ← try_M (on_world (fun w => rmdir w d);; mret true) is_OSError (fun _ => mret false);
      remove_empty_loop dirs' (if ok : bool then S removed else removed)
    else remove_empty_loop dirs' removed
  end.

Definition _remove_empty_dirs (E : Env) (root : path) : M nat :=
  let root := resolve E root in
  ok ← gets (fun s => exists_ (world s) root && is_dir (world s) root);
  if ok : bool
  then dirs ← gets (fun s => dirs_bottom_up (world s) root); remove_empty_loop dirs 0%nat
  else mret 0%nat.

(** ** scan_and_organize *)

Record ScanReport : Type := mkScanReport {
  sr_mode : str;
  sr_source : str;
  sr_output : str;
  sr_total_media : nat;
  sr_to_process : nat;
  sr_entries : list entry;
}.

(** The related files of a primary file, as the scan-only report lists them. *)
Fixpoint plan_related (E : Env) (w : World) (o : Organizer) (target_dir : path)
    (unified_basename : option str) (related : list path) : list entry :=
  match related with
  | [] => []
  | r :: related' =>
    match resolve_destination E w o target_dir r unified_basename with
    | Some r_dest => [(py "related", to_str r, to_str r_dest)]
    | None => []
    end ++ plan_related E w o target_dir unified_basename related'
  end.

(** The scan-only loop: what would be done, without doing it. *)
Fixpoint plan_files (E : Env) (w : World) (o : Organizer) (out : path) (files : list path)
  : result (list entry) :=
  match files with
  | [] => Ok []
  | fp :: files' =>
    mt ← get_media_type E w o fp;
    match mt with
    | None => plan_files E w o out files'
    | Some mt =>
      shoot_date ← get_shoot_date E w o fp mt;
      let date_str := date_str_of E o shoot_date in
      device ← get_device E w o fp mt;
      let target_dir := build_target_dir o (mkMediaInfo fp mt shoot_date device date_str) out in
      unified_basename ← unified_basename_of E w o fp mt device date_str;
      match resolve_destination E w o target_dir fp unified_basename with
      | None =>
        rest ← plan_files E w o out files';
        Ok ((py "skip", to_str fp, py "已存在") :: rest)
      | Some primary_dest =>
        related ← find_related_files w o fp;
        rest ← plan_files E w o out files';
        Ok ((py "move", to_str fp, to_str primary_dest)
              :: plan_related E w o target_dir unified_basename related ++ rest)
      end
    end
  end.

Fixpoint process_all (E : Env) (o : Organizer) (out : path) (dry_run : bool)
    (files : list path) : M unit :=
  match files with
  | [] => mret tt
  | fp :: files' =>
    process_file E o fp out dry_run true;;
    process_all E o out dry_run files'
  end.

(** scan_and_organize with both paths given.  The report list is a fresh
    one; writing processed_files.json next to the program is outside the
    tree modelled here. *)
Definition scan_and_organize (E : Env) (o : Organizer) (src out : path)
    (dry_run scan_only : bool) : M ScanReport :=
  let mode := if scan_only then py "scan_only" else py "organize" in
  ok ← gets (fun s => exists_ (world s) src && is_dir (world s) src);
  if negb ok then mret (mkScanReport mode (to_str src) (to_str out) 0 0 [])
  else
    let out := if bool_decide (resolve E src = resolve E out) then src else out in
    collected ← probe (fun w => _collect_media_files_recursive E w o src);
    let to_process := to_process_of collected in
    if scan_only
    then
      entries ← probe (fun w => plan_files E w o out to_process);
      mret (mkScanReport (py "scan_only") (to_str src) (to_str out)
                         (length collected) (length to_process) entries)
    else
      (fun s => (Ok tt, mkState (world s) (processed s) (events s) []));;
      process_all E o out dry_run to_process;;
      (if negb dry_run && delete_empty_folders (config o)
       then _remove_empty_dirs E out;; mret tt
       else mret tt);;
      entries ← gets report;
      mret (mkScanReport (py "organize") (to_str src) (to_str out)
                         (length collected) (length to_process) entries).

(** ** super_copy_and_organize *)

Record Report : Type := mkReport {
  media_ok : list (str * str);
  media_skip : list (str * str);
  media_fail : list (str * str);
  other_ok : list str;
  other_fail : list (str * str);
}.

(** The dictionary the function returns. *)
Record Stats : Type := mkStats {
  ok : nat;
  fail : nat;
  skip : nat;
  stats_report : option Report;
}.

(** The local variables the loops update. *)
Record Locals : Type := mkLocals {
  l_ok : nat;
  l_fail : nat;
  l_skip : nat;
  l_report : Report;
  copied_paths : gset path;
  current_op : Z;
}.

Definition empty_report : Report := mkReport [] [] [] [] [].
Definition initial_locals : Locals := mkLocals 0 0 0 empty_report ∅ 0%Z.

Definition add_media_ok (l : Locals) (src dest : path) (E : Env) : Locals :=
  let r := l_report l in
  mkLocals (S (l_ok l)) (l_fail l) (l_skip l)
    (mkReport (media_ok r ++ [(to_str src, to_str dest)]) (media_skip r) (media_fail r)
              (other_ok r) (other_fail r))
    ({[resolve E src]} ∪ copied_paths l) (current_op l).
Definition add_media_fail (l : Locals) (count : bool) (src : path) (err : str) : Locals :=
  let r := l_report l in
  mkLocals (l_ok l) (if count then S (l_fail l) else l_fail l) (l_skip l)
    (mkReport (media_ok r) (media_skip r) (media_fail r ++ [(to_str src, err)])
              (other_ok r) (other_fail r))
    (copied_paths l) (current_op l).
Definition add_skip (l : Locals) (entry : option (str * str)) : Locals :=
  let r := l_report l in
  mkLocals (l_ok l) (l_fail l) (S (l_skip l))
    (mkReport (media_ok r)
              (media_skip r ++ match entry with Some e => [e] | None => [] end)
              (media_fail r) (other_ok r) (other_fail r))
    (copied_paths l) (current_op l).
Definition add_other_ok (l : Locals) (rel : str) : Locals :=
  let r := l_report l in
  mkLocals (S (l_ok l)) (l_fail l) (l_skip l)
    (mkReport (media_ok r) (media_skip r) (media_fail r) (other_ok r ++ [rel]) (other_fail r))
    (copied_paths l) (current_op l).
Definition add_other_fail (l : Locals) (rel err : str) : Locals :=
  let r := l_report l in
  mkLocals (l_ok l) (l_fail l) (l_skip l)
    (mkReport (media_ok r) (media_skip r) (media_fail r) (other_ok r)
              (other_fail r ++ [(rel, err)]))
    (copied_paths l) (current_op l).
Definition step_op (l : Locals) (d : Z) : Locals :=
  mkLocals (l_ok l) (l_fail l) (l_skip l) (l_report l) (copied_paths l) (current_op l + d)%Z.

(** [err or ""]. *)
Definition err_or_empty (err : option str) : str := default [] err.

(** The operations counted before the copy starts. *)
Fixpoint count_ops (E : Env) (w : World) (o : Organizer) (files : list path) : result nat :=
  match files with
  | [] => Ok 0%nat
  | fp :: files' =>
    mt ← get_media_type E w o fp;
    n ← match mt with
        | Some _ => related ← find_related_files w o fp; Ok (1 + length related)%nat
        | None => Ok 0%nat
        end;
    rest ← count_ops E w o files';
    Ok (n + rest)%nat
  end.

(** The wrapper handed to the copy: it reports the current counters. *)
Definition counting_cb (progress_cb : option callback) (current total : Z) : callback :=
  fun ph msg _ _ =>
    match progress_cb with
    | Some cb => cb ph msg (Some current) (Some total)
    | None => None
    end.

(** The loop over the related files of a copied primary file. *)
Fixpoint copy_related (E : Env) (o : Organizer) (target_dir : path)
    (unified_basename : option str) (dry_run : bool) (progress_cb : option callback)
    (total_ops : Z) (related : list path) (l : Locals) : M Locals :=
  match related with
  | [] => mret l
  | r :: related' =>
    let l := step_op l 1 in
    r_dest ← gets (fun s => resolve_destination E (world s) o target_dir r unified_basename);
    match r_dest with
    | None =>
      copy_related E o target_dir unified_basename dry_run progress_cb total_ops related'
                   (step_op l (-1))
    | Some r_dest =>
      '(good, err) ← _copy_file_with_hash_verify E r r_dest dry_run
                       (Some (counting_cb progress_cb (current_op l) total_ops));
      call_cb progress_cb (py "progress") [] (Some (current_op l)) (Some total_ops);;
      copy_related E o target_dir unified_basename dry_run progress_cb total_ops related'
        (if good : bool then add_media_ok l r r_dest E
         else add_media_fail l false r (err_or_empty err))
    end
  end.

(** The loop over the primary files. *)
Fixpoint copy_all (E : Env) (o : Organizer) (target : path) (dry_run : bool)
    (progress_cb : option callback) (total_ops : Z) (files : list path) (l : Locals)
  : M Locals :=
  match files with
  | [] => mret l
  | fp :: files' =>
    let continue_ := copy_all E o target dry_run progress_cb total_ops files' in
    media_type ← probe (fun w => get_media_type E w o fp);
    match media_type with
    | None => continue_ (add_skip l None)
    | Some media_type =>
      shoot_date ← probe (fun w => get_shoot_date E w o fp media_type);
      let date_str := date_str_of E o shoot_date in
      device ← probe (fun w => get_device E w o fp media_type);
      let info := mkMediaInfo fp media_type shoot_date device date_str in
      let target_dir := build_target_dir o info target in
      unified_basename ←
        probe (fun w => unified_basename_of E w o fp media_type device date_str);
      primary_dest ←
        gets (fun s => resolve_destination E (world s) o target_dir fp unified_basename);
      match primary_dest with
      | None => continue_ (add_skip l (Some (to_str fp, py "已存在")))
      | Some primary_dest =>
        let l := step_op l 1 in
        '(good, err) ← _copy_file_with_hash_verify E fp primary_dest dry_run
                         (Some (counting_cb progress_cb (current_op l) total_ops));
        call_cb progress_cb (py "progress") [] (Some (current_op l)) (Some total_ops);;
        if negb good then continue_ (add_media_fail l true fp (err_or_empty err))
        else
          let l := add_media_ok l fp primary_dest E in
          related ← probe (fun w => find_related_files w o fp);
          l ← copy_related E o target_dir unified_basename dry_run progress_cb total_ops
                related l;
          continue_ l
      end
    end
  end.

(** The files of the source tree that go to the overflow folder. *)
Definition other_files (E : Env) (w : World) (o : Organizer) (source_resolved other_folder : path)
    (copied : gset path) : list (path * list str * path) :=
  omap (fun f =>
          if bool_decide (resolve E f ∈ copied) then None
          else if should_leave_in_place o f then None
          else match relative_to f source_resolved with
               | Some rel => Some (f, rel, other_folder ++ rel)
               | None => None
               end)
       (walk_files w source_resolved).

(** The loop that copies them, without verification. *)
Fixpoint copy_others (E : Env) (dry_run : bool) (progress_cb : option callback)
    (total_ops : Z) (others : list (path * list str * path)) (l : Locals) : M Locals :=
  match others with
  | [] => mret l
  | (f, rel, dest_file) :: others' =>
    let l := step_op l 1 in
    call_cb progress_cb (py "progress") (py "其他文件: " ++ join [47] rel)
            (Some (current_op l)) (Some total_ops);;
    if dry_run
    then copy_others E dry_run progress_cb total_ops others' (add_other_ok l (join [47] rel))
    else
      copied ← try_copy E f dest_file;
      copy_others E dry_run progress_cb total_ops others'
        (match copied with
         | None => add_other_ok l (join [47] rel)
         | Some e => add_other_fail l (join [47] rel) (exn_str e)
         end)
  end.

Definition stats_of (l : Locals) (with_report : bool) : Stats :=
  mkStats (l_ok l) (l_fail l) (l_skip l) (if with_report then Some (l_report l) else None).

Definition super_copy_and_organize (E : Env) (o : Organizer) (source target : path)
    (dry_run : bool) (progress_cb : option callback) : M Stats :=
  let stats := stats_of initial_locals false in
  ok ← gets (fun s => exists_ (world s) source && is_dir (world s) source);
  if negb ok then mret stats
  else
    on_world (fun w => mkdir_parents w target);;
    let source_resolved := _normalize_source_path E source in
    collected ← try_M (c ← probe (fun w => _collect_media_files_recursive E w o source);
                       mret (Some c))
                      is_OSError (fun _ => mret None);
    match collected with
    | None => mret stats
    | Some collected =>
      let to_process := to_process_of collected in
      if bool_decide (to_process = []) then mret stats
      else
        total_ops ← probe (fun w => count_ops E w o to_process);
        call_cb progress_cb (py "progress") [] (Some 0%Z)
                (Some (Z.max 1 (Z.of_nat total_ops)));;
        l ← copy_all E o target dry_run progress_cb (Z.of_nat total_ops) to_process
              initial_locals;
        let other_folder := joinpath target (py "其他文件") in
        others ← gets (fun s => other_files E (world s) o source_resolved other_folder
                                            (copied_paths l));
        let total_ops := (Z.of_nat total_ops + Z.of_nat (length others))%Z in
        (if negb (bool_decide (others = []))
         then call_cb progress_cb (py "progress") (py "开始拷贝其他文件…")
                      (Some (current_op l)) (Some total_ops)
         else mret tt);;
        l ← copy_others E dry_run progress_cb total_ops others l;
        (if negb dry_run && delete_empty_folders (config o)
         then _remove_empty_dirs E target;; mret tt
         else mret tt);;
        mret (stats_of l true)
    end.

(** ** Concrete environments and trees, for the examples *)

(** A machine with none of the optional tools: no exiftool binary, no PIL,
    no hachoir, no pattern database.  The digest is the identity on the
    byte values, which is enough to tell contents apart. *)
Definition bare_env : Env := {|
  sha256 := map Byte.to_N;
  strptime := fun _ _ => Raise ValueError;
  fromtimestamp := fun t => Ok t;
  strftime := fun d _ => str_of_Z d;
  int_float := fun s => if isdigit s then Ok (int_of_digits s) else Raise ValueError;
  json_loads := fun _ => Raise JSONDecodeError;
  json_repr := fun _ => [];
  pil_available := false;
  pil_size := fun _ => Raise (OtherError (py "ImportError"));
  pil_exif := fun _ => Raise (OtherError (py "ImportError"));
  hachoir_available := false;
  hachoir_meta := fun _ => Raise (OtherError (py "ImportError"));
  exiftool_run := fun _ _ => Raise FileNotFoundError;
  device_db := None;
  resolve := fun p => p;
  cwd := [];
  interference := fun w => w;
|}.

(** A tree from a list of entries, with [n] free bytes and nothing denied. *)
Definition world_of (entries : list (path * node)) (n : nat) : World :=
  mkWorld (list_to_map entries) n ∅ 0%Z.

Definition bytes (s : string) : list Byte.byte := list_byte_of_string s.
Definition file (s : string) : node := File (bytes s) 0%Z true.

Definition state_of (w : World) : State := mkState w ∅ [] [].


(** ** The vocabulary of the properties, and more examples *)

(** A source folder with one clip, one text file and one photo. *)
Definition small_tree : World :=
  world_of [([py "s"], Dir);
            ([py "s"; py "clip.mp4"], file "movie");
            ([py "s"; py "notes.txt"], file "note");
            ([py "s"; py "a.jpg"], file "photo")] 1000.

(** A machine on which every probe answers: PIL and exiftool both report a
    Canon camera, and the pattern database knows a GoPro prefix. *)
Definition canon_env : Env := {|
  sha256 := map Byte.to_N;
  strptime := fun _ _ => Raise ValueError;
  fromtimestamp := fun t => Ok t;
  strftime := fun d _ => str_of_Z d;
  int_float := fun s => if isdigit s then Ok (int_of_digits s) else Raise ValueError;
  json_loads := fun _ => Ok (JArr [JObj [(py "Make", JStr (py "Canon"));
                                         (py "Model", JStr (py "EOS R5"))]]);
  json_repr := fun _ => [];
  pil_available := true;
  pil_size := fun _ => Ok (8192, 5464)%Z;
  pil_exif := fun _ => Ok [(py "Make", EStr (py "Canon")); (py "Model", EStr (py "EOS R5"))];
  hachoir_available := false;
  hachoir_meta := fun _ => Raise (OtherError (py "ImportError"));
  exiftool_run := fun _ _ => Ok (0%Z, py "[{}]");
  device_db := Some (Ok [(py "GoPro", ([], [py "GOPR"], []))]);
  resolve := fun p => p;
  cwd := [];
  interference := fun w => w;
|}.

(** A card with a drone clip, a drone photo, a low-resolution proxy and a
    camera photo. *)
Definition drone_card : World :=
  world_of [([py "card"], Dir);
            ([py "card"; py "DJI_0012.MOV"], file "clip");
            ([py "card"; py "dji_0013.jpg"], file "still");
            ([py "card"; py "0014.LRF"], file "proxy");
            ([py "card"; py "IMG_0001.jpg"], file "photo")] 1000.


(** A folder in which X.jpg and X_1.jpg are taken. *)
Definition crowded_dir : World :=
  world_of [([py "out"], Dir);
            ([py "out"; py "X.jpg"], file "first");
            ([py "out"; py "X_1.jpg"], file "second");
            ([py "in"], Dir);
            ([py "in"; py "X.jpg"], file "third")] 1000.


(** [m] leaves the report as it is up to entries that satisfy [P]. *)
Definition reports (P : entry -> Prop) {A} (m : M A) : Prop :=
  forall s r s', m s = (r, s') -> exists extra, report s' = report s ++ extra ∧ Forall P extra.

(** The action of a report entry. *)
Definition action (e : entry) : str := e.1.1.

(** The entries the placement writes when no destination is ever absent. *)
Definition moving_action (e : entry) : Prop :=
  action e ∈ [py "move"; py "fail"; py "related"; py "fail_related"].

Definition returns {A} (Q : A -> Prop) (m : M A) : Prop :=
  forall s a s', m s = (Ok a, s') -> Q a.

(** No collision entry in the copy report. *)
Definition no_media_skip (l : Locals) : Prop := media_skip (l_report l) = [].





(** The copy step of the protocol: make the parent folders, then copy. *)
Definition copy_step (E : Env) (w : World) (src dest : path) : result unit * World :=
  match mkdir_parents w (parent dest) with
  | (Ok _, w0) => copy2 E w0 src dest
  | (Raise e, w0) => (Raise e, w0)
  end.

Definition with_events (s : State) (evs : list event) : State :=
  mkState (world s) (processed s) evs (report s).

Definition with_world (s : State) (w : World) : State :=
  mkState w (processed s) (events s) (report s).

(** [m] run from [s] returns, with a value and a state that satisfy [Q]. *)
Definition runs_to {A} (m : M A) (s : State) (Q : A -> State -> Prop) : Prop :=
  exists a s', m s = (Ok a, s') ∧ Q a s'.

(** What the copy of one file comes to, callbacks aside. *)
Definition copy_outcome (E : Env) (src dest : path) (s : State)
    (res : bool * option str) (s' : State) : Prop :=
  processed s' = processed s ∧ report s' = report s ∧
  match _compute_file_hash E (world s) src with
  | None =>
    res = (false, Some (py "无法计算源文件哈希")) ∧ world s' = world s
  | Some h =>
    match copy_step E (world s) src dest with
    | (Raise e, w1) => res = (false, Some (exn_str e)) ∧ world s' = w1
    | (Ok _, w1) =>
      if bool_decide (_compute_file_hash E w1 dest = Some h)
      then res = (true, None) ∧ world s' = w1
      else res.1 = false ∧ (exists msg, res.2 = Some msg ∧ msg <> [])
           ∧ world s' = (unlink_missing_ok w1 dest).2
    end
  end.





(** A volume with room for three more bytes. *)
Definition tight_volume : World :=
  world_of [([py "s"], Dir);
            ([py "s"; py "a.jpg"], file "photo");
            ([py "s"; py "b.jpg"], file "x")] 3.





(** ** The vocabulary of the further properties *)

(** [m] relates the state it starts from to the state it ends in by [R]. *)
Definition preserves (R : State -> State -> Prop) {A} (m : M A) : Prop :=
  forall s r s', m s = (r, s') -> R s s'.

(** Nothing but the processed set and the report has changed. *)
Definition same_world (s s' : State) : Prop :=
  world s' = world s ∧ events s' = events s.

(** The processed set has only grown. *)
Definition processed_grows (s s' : State) : Prop :=
  processed s ⊆ processed s'.

(** When [m] returns, the value and the final state satisfy [Q]. *)
Definition ensures {A} (Q : A -> State -> Prop) (m : M A) : Prop :=
  forall s a s', m s = (Ok a, s') -> Q a s'.

(** The deduplication key of a file: its folder and its stem. *)
Definition stem_dir (p : path) : path * str := (parent p, stem p).

(** Two stems are related when they are equal or one is the other followed
    by an underscore or a space and anything. *)
Definition related_stems (a b : str) : Prop :=
  a = b ∨ exists sep tail, (sep = 95 ∨ sep = 32)
                           ∧ (a = b ++ sep :: tail ∨ b = a ++ sep :: tail).


(** Both relations are preorders. *)
#[local] Instance same_world_refl : Reflexive same_world.
Proof. by intros s. Qed.
#[local] Instance same_world_trans : Transitive same_world.
Proof. intros s1 s2 s3 [H1 H2] [H3 H4]. split; congruence. Qed.
#[local] Instance processed_grows_refl : Reflexive processed_grows.
Proof. intros s. unfold processed_grows. set_solver. Qed.
#[local] Instance processed_grows_trans : Transitive processed_grows.
Proof. intros s1 s2 s3. unfold processed_grows. set_solver. Qed.


(** The counters agree with the report lists: every success is listed,
    every counted failure is listed, every listed skip is counted. *)
Definition accounted (l : Locals) : Prop :=
  l_ok l = (length (media_ok (l_report l)) + length (other_ok (l_report l)))%nat
  ∧ (l_fail l <= length (media_fail (l_report l)))%nat
  ∧ (length (media_skip (l_report l)) <= l_skip l)%nat.

(** [s'] is [s] with some directories strictly below [root] removed, and
    nothing else changed. *)
Definition pruned (root : path) (s s' : State) : Prop :=
  (forall p : path,
     tree (world s') !! p = tree (world s) !! p
     ∨ (tree (world s') !! p = None ∧ tree (world s) !! p = Some Dir
        ∧ p <> root ∧ is_Some (relative_to p root)))
  ∧ world s' = with_tree (world s) (tree (world s'))
  ∧ processed s' = processed s ∧ events s' = events s ∧ report s' = report s.

(** A target folder with a chain of two empty folders and a folder that
    holds a photo. *)
Definition hollow_tree : World :=
  world_of [([py "t"], Dir);
            ([py "t"; py "a"], Dir);
            ([py "t"; py "a"; py "b"], Dir);
            ([py "t"; py "c"], Dir);
            ([py "t"; py "c"; py "x.jpg"], file "photo")] 1000.

(** [p] is [root] or lies below it. *)
Definition below (root p : path) : Prop := exists rest, p = root ++ rest.

(** Every entry outside [root] is still there, as it was. *)
Definition kept_outside (root : path) (w w' : World) : Prop :=
  forall (p : path) (n : node), ¬ below root p -> tree w !! p = Some n -> tree w' !! p = Some n.
Definition outside_kept (root : path) (s s' : State) : Prop :=
  kept_outside root (world s) (world s').

#[local] Instance outside_kept_refl (root : path) : Reflexive (outside_kept root).
Proof. by intros s p n. Qed.
#[local] Instance outside_kept_trans (root : path) : Transitive (outside_kept root).
Proof. intros s1 s2 s3 H1 H2 p n Hp Hn. by apply H2, H1. Qed.

(** * Properties *)

(** ** Tactics and basic facts *)


Lemma bool_decide_false_iff (P : Prop) `{Decision P} : bool_decide P = false <-> ¬ P.
Proof.
  split; intros HP.
  - intros Hp. rewrite (bool_decide_eq_true_2 _ Hp) in HP. discriminate.
  - by apply bool_decide_eq_false_2.
Qed.



(** ** The classifier *)



(** Running a bind. *)
Lemma run_bind {A B} (m : M A) (f : A -> M B) (s : State) :
  (m ≫= f) s = match m s with (Ok a, s') => f a s' | (Raise e, s') => (Raise e, s') end.
Proof. reflexivity. Qed.

Lemma bind_Ok_inv {A B} (m : M A) (f : A -> M B) (s s' : State) (b : B) :
  (m ≫= f) s = (Ok b, s') -> exists a s1, m s = (Ok a, s1) ∧ f a s1 = (Ok b, s').
Proof.
  rewrite run_bind. destruct (m s) as [[a|e] s1]; intros H; [eauto | discriminate].
Qed.



Lemma dedupe_subset (files : list path) (seen : gset (path * str)) (q : path) :
  q ∈ dedupe files seen -> q ∈ files.
Proof.
  revert seen. induction files as [|f files IH]; intros seen Hq; simpl in Hq; [done |].
  destruct (bool_decide _).
  - apply elem_of_cons. right. by eapply IH.
  - apply elem_of_cons in Hq as [->|Hq]; [by left |]. apply elem_of_cons. right. by eapply IH.
Qed.





(** ** Device inference *)

Lemma startswith_map (f : char -> char) (s p : str) :
  startswith s p = true -> startswith (map f s) (map f p) = true.
Proof.
  revert s. induction p as [|a p IH]; intros [|b s] H; simpl in *; try done.
  apply andb_true_iff in H as [Hab Hs]. apply N.eqb_eq in Hab. subst.
  rewrite N.eqb_refl. simpl. by apply IH.
Qed.

Lemma contains_map (f : char -> char) (needle hay : str) :
  contains needle hay = true -> contains (map f needle) (map f hay) = true.
Proof.
  induction hay as [|c hay IH]; intros H.
  - change (startswith [] needle || false = true) in H.
    change (startswith (map f []) (map f needle) || false = true).
    apply orb_true_iff in H as [H|H]; [| done].
    apply orb_true_iff. left. by apply startswith_map.
  - change (startswith (c :: hay) needle || contains needle hay = true) in H.
    change (startswith (map f (c :: hay)) (map f needle)
            || contains (map f needle) (map f hay) = true).
    apply orb_true_iff. apply orb_true_iff in H as [H|H].
    + left. by apply startswith_map.
    + right. by apply IH.
Qed.

Lemma contains_DJI_upper (s : str) :
  contains (py "DJI") s = true -> contains (py "DJI") (upper s) = true.
Proof. intros H. apply (contains_map upper_char) in H. exact H. Qed.

(** C8.  For a file classified image, video or panoramic_video whose stem
    contains the marker DJI (in any letter case) or the brand name itself,
    and for a video or panoramic_video file with the extension .lrf,
    get_device returns the drone brand: whatever PIL, exiftool or the
    pattern database would say, for every environment. *)
Theorem drone_marker_decides_device
    (E : Env) (w : World) (o : Organizer) (p : path) (mt : media_type) :
  mt <> audio ->
  contains (py "DJI") (stem p) = true
  ∨ contains (py "DJI") (upper (stem p)) = true
  ∨ contains dji (stem p) = true
  ∨ (is_video_kind mt = true ∧ lower (suffix p) = py ".lrf") ->
  get_device E w o p mt = Ok dji.
Proof.
  intros Hmt H. unfold get_device.
  assert (Hin : mt ∈ [image; video; panoramic_video]).
  { destruct mt; try done; repeat constructor. }
  rewrite (bool_decide_eq_true_2 _ Hin). simpl.
  destruct H as [H|[H|[H|[Hv Hl]]]].
  - by rewrite (contains_DJI_upper _ H).
  - by rewrite H.
  - rewrite H. by rewrite orb_true_r.
  - destruct (_ || _); [done |]. rewrite Hv. by rewrite (bool_decide_eq_true_2 _ Hl).
Qed.

Lemma drone_marker_decides_device_witness :
  get_device canon_env drone_card (init default_config) [py "card"; py "DJI_0012.MOV"] video
    = Ok dji
  ∧ get_device canon_env drone_card (init default_config) [py "card"; py "dji_0013.jpg"] image
    = Ok dji
  ∧ get_device canon_env drone_card (init default_config) [py "card"; py "0014.LRF"] video
    = Ok dji
  ∧ get_device canon_env drone_card (init default_config) [py "card"; py "IMG_0001.jpg"] image
    = Ok (py "Canon EOS R5").
Proof.
  split; [| split; [| split]].
  - apply drone_marker_decides_device; [discriminate |]. left. vm_compute. reflexivity.
  - apply drone_marker_decides_device; [discriminate |]. right. left. vm_compute. reflexivity.
  - apply drone_marker_decides_device; [discriminate |]. right. right. right.
    split; vm_compute; reflexivity.
  - vm_compute. reflexivity.
Defined.

(** ** Collision resolution *)

Lemma probe_suffixes_is_Some (w : World) (target_dir : path) (stem_ ext : str)
    (range : list nat) (dest : path) :
  is_Some (probe_suffixes w target_dir stem_ ext range dest).
Proof.
  revert dest. induction range as [|i range IH]; intros dest; simpl; [by eexists |].
  destruct (negb _); [by eexists | apply IH].
Qed.


(** C9.  resolve_destination always returns a path, never the absent
    value, for every tree, source, base name and duplicate strategy. *)
Lemma resolve_destination_is_Some (E : Env) (w : World) (o : Organizer)
    (target_dir filepath : path) (unified_basename : option str) :
  is_Some (resolve_destination E w o target_dir filepath unified_basename).
Proof.
  unfold resolve_destination.
  destruct (negb _); [by eexists |].
  destruct (bool_decide _); [by eexists |].
  destruct (bool_decide _); [by eexists |].
  apply probe_suffixes_is_Some.
Qed.









(** ** What a computation appends to the report *)

Section Reports.
Context (P : entry -> Prop).

Lemma reports_quiet {A} (m : M A) :
  (forall s, report (m s).2 = report s) -> reports P m.
Proof.
  intros H s r s' Hrun. exists []. specialize (H s). rewrite Hrun in H. simpl in H.
  rewrite H, app_nil_r. split; [done | constructor].
Qed.

Lemma reports_ret {A} (a : A) : reports P (mret a : M A).
Proof. by apply reports_quiet. Qed.

Lemma reports_gets {A} (f : State -> A) : reports P (gets f).
Proof. by apply reports_quiet. Qed.

Lemma reports_probe {A} (f : World -> result A) : reports P (probe f).
Proof. by apply reports_quiet. Qed.

Lemma reports_on_world (f : World -> result unit * World) : reports P (on_world f).
Proof. apply reports_quiet. intros s. unfold on_world. by destruct (f (world s)). Qed.

Lemma reports_mark_processed (k : str) : reports P (mark_processed k).
Proof. by apply reports_quiet. Qed.

Lemma reports_append (b : bool) (e : entry) : P e -> reports P (append_report b e).
Proof.
  intros He s r s' Hrun. unfold append_report in Hrun. inversion Hrun; subst.
  destruct b; simpl.
  - exists [e]. split; [done | by constructor].
  - exists []. rewrite app_nil_r. split; [done | constructor].
Qed.

Lemma reports_bind {A B} (m : M A) (f : A -> M B) :
  reports P m -> (forall a, reports P (f a)) -> reports P (m ≫= f).
Proof.
  intros Hm Hf s r s' Hrun. rewrite run_bind in Hrun.
  destruct (m s) as [[a|e] s1] eqn:Hms.
  - destruct (Hm _ _ _ Hms) as (x1 & E1 & F1).
    destruct (Hf a _ _ _ Hrun) as (x2 & E2 & F2).
    exists (x1 ++ x2). rewrite E2, E1, app_assoc. split; [done | by apply Forall_app].
  - inversion Hrun; subst. by eapply Hm.
Qed.

Lemma reports_try {A} (m : M A) (caught : exn -> bool) (h : exn -> M A) :
  reports P m -> (forall e, reports P (h e)) -> reports P (try_M m caught h).
Proof.
  intros Hm Hh s r s' Hrun. unfold try_M in Hrun.
  destruct (m s) as [[a|e] s1] eqn:Hms.
  - inversion Hrun; subst. by eapply Hm.
  - destruct (caught e).
    + destruct (Hm _ _ _ Hms) as (x1 & E1 & F1).
      destruct (Hh e _ _ _ Hrun) as (x2 & E2 & F2).
      exists (x1 ++ x2). rewrite E2, E1, app_assoc. split; [done | by apply Forall_app].
    + inversion Hrun; subst. by eapply Hm.
Qed.

Lemma reports_try_move (target_dir src dest : path) : reports P (try_move target_dir src dest).
Proof.
  unfold try_move. apply reports_try.
  - repeat (apply reports_bind; [apply reports_on_world | intros _]). apply reports_ret.
  - intros e. apply reports_ret.
Qed.
End Reports.

Lemma move_related_reports (P : entry -> Prop) (E : Env) (o : Organizer) (target_dir : path)
    (ub : option str) (dry_run report_list : bool) (related : list path) :
  (forall src x, P (py "related", src, x)) ->
  (forall src x, P (py "fail_related", src, x)) ->
  reports P (move_related E o target_dir ub dry_run report_list related).
Proof.
  intros Hrel Hfail. induction related as [|r related IH]; cbn [move_related].
  - apply reports_ret.
  - apply reports_bind; [apply reports_gets | intros is_done].
    destruct is_done; [exact IH |].
    apply reports_bind; [apply reports_gets | intros [r_dest|]].
    + apply reports_bind.
      * destruct (negb dry_run && move_files (config o)).
        -- apply reports_bind; [apply reports_try_move | intros [e|]];
             apply reports_append; auto.
        -- apply reports_append; auto.
      * intros _. apply reports_bind; [apply reports_mark_processed | intros _; exact IH].
    + apply reports_bind; [apply reports_mark_processed | intros _; exact IH].
Qed.

Lemma reports_bind_gets (P : entry -> Prop) {A B} (g : State -> A) (f : A -> M B) :
  (forall s, reports P (f (g s))) -> reports P (gets g ≫= f).
Proof. intros H s r s' Hrun. rewrite run_bind in Hrun. by apply (H s s r s'). Qed.

Lemma classify_and_place_reports (E : Env) (o : Organizer) (filepath output_root : path)
    (dry_run report_list : bool) :
  reports moving_action (classify_and_place E o filepath output_root dry_run report_list).
Proof.
  unfold classify_and_place.
  apply reports_bind; [apply reports_probe | intros [mt|]]; [| apply reports_ret].
  apply reports_bind; [apply reports_probe | intros shoot_date].
  apply reports_bind; [apply reports_probe | intros device].
  apply reports_bind; [apply reports_probe | intros ub].
  apply reports_bind_gets. intros s0.
  destruct (resolve_destination_is_Some E (world s0) o
              (build_target_dir o
                 (mkMediaInfo filepath mt shoot_date device (date_str_of E o shoot_date))
                 output_root) filepath ub) as [primary_dest ->].
  apply reports_bind; [apply reports_probe | intros related].
  apply reports_bind.
  - destruct (negb dry_run && move_files (config o)).
    + apply reports_bind; [apply reports_try_move | intros [e|]];
        (apply reports_bind; [apply reports_append | intros _; apply reports_ret]);
        unfold moving_action, action; simpl; set_solver.
    + apply reports_bind; [apply reports_append | intros _; apply reports_ret].
      unfold moving_action, action; simpl; set_solver.
  - intros [|]; [| apply reports_ret].
    apply reports_bind.
    + apply move_related_reports; intros; unfold moving_action, action; simpl; set_solver.
    + intros _. apply reports_bind; [apply reports_mark_processed | intros _; apply reports_ret].
Qed.

Lemma reports_weaken (P Q : entry -> Prop) {A} (m : M A) :
  (forall e, P e -> Q e) -> reports P m -> reports Q m.
Proof.
  intros HPQ Hm s r s' Hrun. destruct (Hm _ _ _ Hrun) as (x & Hx & HF).
  exists x. split; [done |]. eapply Forall_impl; eauto.
Qed.

(** ** What a computation returns *)

Lemma returns_ret {A} (Q : A -> Prop) (a : A) : Q a -> returns Q (mret a : M A).
Proof. intros H s a' s' Hrun. inversion Hrun; by subst. Qed.

Lemma returns_bind {A B} (Q : B -> Prop) (m : M A) (f : A -> M B) :
  (forall a, returns Q (f a)) -> returns Q (m ≫= f).
Proof.
  intros Hf s b s' Hrun. apply bind_Ok_inv in Hrun as (a & s1 & _ & Hrun). by eapply Hf.
Qed.

Lemma returns_bind_with {A B} (Q1 : A -> Prop) (Q : B -> Prop) (m : M A) (f : A -> M B) :
  returns Q1 m -> (forall a, Q1 a -> returns Q (f a)) -> returns Q (m ≫= f).
Proof.
  intros Hm Hf s b s' Hrun. apply bind_Ok_inv in Hrun as (a & s1 & Hms & Hrun).
  eapply Hf; eauto.
Qed.

Lemma returns_bind_gets {A B} (Q : B -> Prop) (g : State -> A) (f : A -> M B) :
  (forall s, returns Q (f (g s))) -> returns Q (gets g ≫= f).
Proof. intros H s b s' Hrun. rewrite run_bind in Hrun. by apply (H s s b s'). Qed.

Lemma copy_related_no_skip (E : Env) (o : Organizer) (target_dir : path) (ub : option str)
    (dry_run : bool) (cb : option callback) (total : Z) (related : list path) (l : Locals) :
  no_media_skip l ->
  returns no_media_skip (copy_related E o target_dir ub dry_run cb total related l).
Proof.
  revert l. induction related as [|r related IH]; intros l Hl; cbn [copy_related].
  - by apply returns_ret.
  - apply returns_bind_gets. intros s0.
    destruct (resolve_destination_is_Some E (world s0) o target_dir r ub) as [r_dest ->].
    apply returns_bind. intros [good err]. apply returns_bind. intros _.
    apply IH. by destruct good.
Qed.

Lemma copy_all_no_skip (E : Env) (o : Organizer) (target : path) (dry_run : bool)
    (cb : option callback) (total : Z) (files : list path) (l : Locals) :
  no_media_skip l ->
  returns no_media_skip (copy_all E o target dry_run cb total files l).
Proof.
  revert l. induction files as [|fp files IH]; intros l Hl; cbn [copy_all].
  - by apply returns_ret.
  - apply returns_bind. intros [mt|]; [| apply IH; unfold no_media_skip; simpl;
                                          by rewrite Hl].
    apply returns_bind. intros shoot_date. apply returns_bind. intros device.
    apply returns_bind. intros ub. apply returns_bind_gets. intros s0.
    destruct (resolve_destination_is_Some E (world s0) o
                (build_target_dir o
                   (mkMediaInfo fp mt shoot_date device (date_str_of E o shoot_date))
                   target) fp ub) as [primary_dest ->].
    apply returns_bind. intros [good err]. apply returns_bind. intros _.
    destruct good; cbn [negb].
    + apply returns_bind. intros related.
      eapply returns_bind_with; [apply copy_related_no_skip; exact Hl | apply IH].
    + apply IH. exact Hl.
Qed.

Lemma copy_others_no_skip (E : Env) (dry_run : bool) (cb : option callback) (total : Z)
    (others : list (path * list str * path)) (l : Locals) :
  no_media_skip l -> returns no_media_skip (copy_others E dry_run cb total others l).
Proof.
  revert l. induction others as [|[[f rel] dest_file] others IH]; intros l Hl;
    cbn [copy_others].
  - by apply returns_ret.
  - apply returns_bind. intros _. destruct dry_run.
    + by apply IH.
    + apply returns_bind. intros copied. apply IH. by destruct copied.
Qed.

(** C9.  resolve_destination always returns a path and never the absent
    value.  Consequently process_file never writes a skip entry, and the
    media_skip list of the report of super_copy_and_organize is always
    empty: under every duplicate strategy, no classified file is dropped
    from placement because its destination name was taken. *)
Theorem resolve_destination_never_absent (E : Env) (o : Organizer) :
  (forall w target_dir filepath unified_basename,
     exists dest, resolve_destination E w o target_dir filepath unified_basename = Some dest)
  ∧ (forall filepath output_root dry_run report_list,
       reports (fun e => action e <> py "skip")
               (process_file E o filepath output_root dry_run report_list))
  ∧ (forall source target dry_run progress_cb,
       returns (fun stats => forall rep, stats_report stats = Some rep -> media_skip rep = [])
               (super_copy_and_organize E o source target dry_run progress_cb)).
Proof.
  split; [| split].
  - intros. apply resolve_destination_is_Some.
  - intros. unfold process_file.
    apply reports_bind; [apply reports_gets | intros is_done].
    destruct (is_done && _).
    + apply reports_bind; [apply reports_append | intros _; apply reports_ret].
      unfold action. simpl. vm_compute. discriminate.
    + eapply reports_weaken; [| apply classify_and_place_reports].
      intros e He Hskip. unfold moving_action in He. rewrite Hskip in He.
      revert He. vm_compute. intros He.
      repeat (apply elem_of_cons in He as [He|He]; [discriminate He |]).
      by apply elem_of_nil in He.
  - intros. unfold super_copy_and_organize.
    apply returns_bind. intros okay. destruct (negb okay); [by apply returns_ret |].
    apply returns_bind. intros _. apply returns_bind. intros [collected|];
      [| by apply returns_ret].
    destruct (bool_decide _); [by apply returns_ret |].
    apply returns_bind. intros total_ops. apply returns_bind. intros _.
    eapply returns_bind_with; [apply copy_all_no_skip; reflexivity |].
    intros l Hl. apply returns_bind. intros others. apply returns_bind. intros _.
    eapply returns_bind_with; [apply copy_others_no_skip; exact Hl |].
    intros l' Hl'. apply returns_bind. intros _. apply returns_ret.
    intros rep Hrep. simpl in Hrep. inversion Hrep; subst. exact Hl'.
Qed.

Lemma resolve_destination_never_absent_witness :
  (exists dest,
     resolve_destination bare_env crowded_dir (init default_config) [py "out"]
       [py "in"; py "X.jpg"] None = Some dest)
  ∧ match (super_copy_and_organize bare_env (init default_config) [py "s"] [py "t"] false None
             (state_of small_tree)).1 with
    | Ok stats =>
      match stats_report stats with Some rep => media_skip rep = [] | None => True end
    | Raise _ => True
    end.
Proof.
  destruct (resolve_destination_never_absent bare_env (init default_config))
    as (H1 & _ & H3).
  split; [apply H1 |].
  destruct (super_copy_and_organize bare_env (init default_config) [py "s"] [py "t"] false None
              (state_of small_tree)) as [[stats|e] s'] eqn:Hrun; [| exact I].
  cbn [fst]. destruct (stats_report stats) as [rep|] eqn:Hrep; [| exact I].
  exact (H3 _ _ _ _ _ _ _ Hrun rep Hrep).
Defined.

(** ** The processed set and reclassification *)





(** ** The hash-verified copy of one file *)

Lemma runs_ret {A} (a : A) (s : State) (Q : A -> State -> Prop) :
  Q a s -> runs_to (mret a) s Q.
Proof. intros H. by exists a, s. Qed.

Lemma runs_bind {A B} (m : M A) (f : A -> M B) (s : State) (Q : B -> State -> Prop) :
  runs_to m s (fun a s1 => runs_to (f a) s1 Q) -> runs_to (m ≫= f) s Q.
Proof.
  intros (a & s1 & Hm & b & s2 & Hf & HQ). exists b, s2. split; [| done].
  by rewrite run_bind, Hm.
Qed.

Lemma runs_gets {A} (f : State -> A) (s : State) (Q : A -> State -> Prop) :
  Q (f s) s -> runs_to (gets f) s Q.
Proof. intros H. by exists (f s), s. Qed.

Lemma runs_call_cb (cb : option callback) (ph msg : str) (cur total : option Z)
    (s : State) (Q : unit -> State -> Prop) :
  (forall evs, Q tt (with_events s evs)) -> runs_to (call_cb cb ph msg cur total) s Q.
Proof.
  intros H. unfold call_cb. destruct cb as [f|].
  - destruct (f ph msg cur total) as [ev|].
    + exists tt, (with_events s (events s ++ [ev])). split; [done | apply H].
    + exists tt, s. split; [done |]. specialize (H (events s)). by destruct s.
  - exists tt, s. split; [done |]. specialize (H (events s)). by destruct s.
Qed.

Lemma runs_unlink_quietly (dest : path) (s : State) (Q : unit -> State -> Prop) :
  Q tt (with_world s (unlink_missing_ok (world s) dest).2) ->
  runs_to (unlink_quietly dest) s Q.
Proof.
  intros H. unfold unlink_quietly, try_M, on_world, runs_to.
  destruct (unlink_missing_ok (world s) dest) as [[u|e] w'] eqn:Hu; simpl in *.
  - destruct u. eauto.
  - assert (is_OSError e = true) as ->.
    { unfold unlink_missing_ok in Hu. destruct (lookup_node _ _) as [[|]|]; try congruence.
      - destruct (bool_decide _); inversion Hu; by subst.
      - inversion Hu; by subst. }
    eauto.
Qed.

Lemma run_try_copy (E : Env) (src dest : path) (s : State) :
  try_copy E src dest s
  = match copy_step E (world s) src dest with
    | (Ok _, w1) => (Ok None, with_world s w1)
    | (Raise e, w1) => (Ok (Some e), with_world s w1)
    end.
Proof.
  unfold try_copy, try_M, copy_step. rewrite run_bind. unfold on_world at 1.
  destruct (mkdir_parents (world s) (parent dest)) as [[u|e] w0]; [| done].
  rewrite run_bind. unfold on_world. cbn [world].
  by destruct (copy2 E w0 src dest) as [[u'|e] w1].
Qed.

Lemma copy_outcome_events (E : Env) (src dest : path) (s : State) (evs : list event)
    (res : bool * option str) (s' : State) :
  copy_outcome E src dest (with_events s evs) res s' -> copy_outcome E src dest s res s'.
Proof. done. Qed.

Lemma copy_verify_outcome (E : Env) (src dest : path) (cb : option callback) (s : State) :
  runs_to (_copy_file_with_hash_verify E src dest false cb) s (copy_outcome E src dest s).
Proof.
  unfold _copy_file_with_hash_verify.
  apply runs_bind, runs_call_cb. intros evs0.
  apply runs_bind, runs_gets. cbn [world with_events].
  destruct (_compute_file_hash E (world s) src) as [h|] eqn:Hsrc.
  2:{ apply runs_bind, runs_call_cb. intros evs1. apply runs_ret.
      unfold copy_outcome. rewrite Hsrc. done. }
  apply runs_bind, runs_call_cb. intros evs1.
  apply runs_bind.
  unfold runs_to at 1. rewrite run_try_copy. cbn [world with_events].
  destruct (copy_step E (world s) src dest) as [[u|e] w1] eqn:Hcp.
  2:{ eexists _, _. split; [reflexivity |].
      apply runs_bind, runs_call_cb. intros evs2. apply runs_ret.
      unfold copy_outcome. rewrite Hsrc, Hcp. done. }
  eexists _, _. split; [reflexivity |].
  apply runs_bind, runs_call_cb. intros evs2.
  apply runs_bind, runs_gets. cbn [world with_events with_world].
  destruct (_compute_file_hash E w1 dest) as [h'|] eqn:Hdst.
  - destruct (decide (h = h')) as [Hh|Hh].
    + subst h'. rewrite (bool_decide_eq_true_2 (h = h)) by done. cbn [negb].
      apply runs_bind, runs_call_cb. intros evs3. apply runs_ret.
      unfold copy_outcome. rewrite Hsrc, Hcp, Hdst.
      rewrite bool_decide_eq_true_2; done.
    + rewrite (bool_decide_eq_false_2 (h = h')) by done. cbn [negb].
      apply runs_bind, runs_unlink_quietly.
      apply runs_bind, runs_call_cb. intros evs3. apply runs_ret.
      unfold copy_outcome. rewrite Hsrc, Hcp, Hdst.
      rewrite bool_decide_eq_false_2 by congruence.
      split; [reflexivity |]. split; [reflexivity |]. split; [reflexivity |].
      split; [| reflexivity]. eexists. split; [reflexivity |]. discriminate.
  - apply runs_bind, runs_unlink_quietly.
    apply runs_bind, runs_call_cb. intros evs3. apply runs_ret.
    unfold copy_outcome. rewrite Hsrc, Hcp, Hdst.
    rewrite bool_decide_eq_false_2 by congruence.
    split; [reflexivity |]. split; [reflexivity |]. split; [reflexivity |].
    split; [| reflexivity]. eexists. split; [reflexivity |]. discriminate.
Qed.




(** ** Copy errors and dry runs *)

(** When the copy step raises, the call reports the error and leaves the
    tree as the failed copy left it: nothing is unlinked. *)
Lemma copy_error_is_not_cleaned_up (E : Env) (src dest : path) (cb : option callback)
    (s : State) (h : str) (e : exn) (w1 : World) :
  _compute_file_hash E (world s) src = Some h ->
  copy_step E (world s) src dest = (Raise e, w1) ->
  exists s', _copy_file_with_hash_verify E src dest false cb s
             = (Ok (false, Some (exn_str e)), s')
             ∧ world s' = w1.
Proof.
  intros Hsrc Hcp.
  destruct (copy_verify_outcome E src dest cb s) as (res & s' & Hrun & _ & _ & Hout).
  rewrite Hsrc, Hcp in Hout. destruct Hout as [-> Hw]. by exists s'.
Qed.

(** C3.  On a volume with room for three bytes, the copy of the five-byte
    file /s/a.jpg fails with a copy I/O error.  The failure is per file:
    the call returns False with the reason, super_copy_and_organize records
    both primary files as failed and goes on to the end.  But the partial
    destination is not cleaned up: the three bytes that were written stay
    at the destination. *)
Theorem copy_error_leaves_partial_destination :
  (let r := _copy_file_with_hash_verify bare_env [py "s"; py "a.jpg"] [py "t"; py "a.jpg"]
              false None (state_of tight_volume) in
   r.1 = Ok (false, Some (py "No space left on device"))
   ∧ exists_ tight_volume [py "t"; py "a.jpg"] = false
   ∧ tree (world r.2) !! [py "t"; py "a.jpg"] = Some (file "pho"))
  ∧ (let r := super_copy_and_organize bare_env (init default_config) [py "s"] [py "t"]
                false None (state_of tight_volume) in
     (exists rep, r.1 = Ok (mkStats 0 2 0 (Some rep))
                  ∧ map fst (media_fail rep) = [py "/s/a.jpg"; py "/s/b.jpg"])
     ∧ tree (world r.2) !! [py "t"; py "0"; py "图片"; py "未知设备"; py "未知设备_0.jpg"]
       = Some (file "pho")).
Proof.
  split; [repeat split; vm_compute; reflexivity |].
  split; [| vm_compute; reflexivity].
  eexists. split; vm_compute; reflexivity.
Qed.

(** A dry run of the copy of one file does nothing at all. *)
Lemma dry_run_copy_is_silent (E : Env) (src dest : path) (cb : option callback) (s : State) :
  _copy_file_with_hash_verify E src dest true cb s = (Ok (true, None), s).
Proof. reflexivity. Qed.

(** C6.  A dry run of super_copy_and_organize does create a directory:
    the target root, which did not exist before, exists afterwards (and it
    is the only change to the tree). *)
Theorem dry_run_creates_target_directory :
  let r := super_copy_and_organize bare_env (init default_config) [py "s"] [py "t"]
             true None (state_of small_tree) in
  exists_ small_tree [py "t"] = false
  ∧ (exists stats, r.1 = Ok stats ∧ ok stats = 3%nat)
  ∧ tree (world r.2) !! [py "t"] = Some Dir
  ∧ tree (world r.2) = <[ [py "t"] := Dir ]> (tree small_tree).
Proof.
  split; [vm_compute; reflexivity |].
  split; [eexists; split; vm_compute; reflexivity |].
  split; [vm_compute; reflexivity |].
  apply map_eq. intros k.
  destruct (decide (k = [py "t"])) as [->|Hk]; [vm_compute; reflexivity |].
  rewrite lookup_insert_ne by done.
  assert (Hrun : world (super_copy_and_organize bare_env (init default_config) [py "s"]
                          [py "t"] true None (state_of small_tree)).2
                 = with_tree small_tree (<[ [py "t"] := Dir ]> (tree small_tree)))
    by (vm_compute; reflexivity).
  cbv zeta. rewrite Hrun. cbn [tree with_tree]. by rewrite lookup_insert_ne.
Qed.

(** ** The probes and their failures *)
















(** ** Further properties of the code *)

(** *** The streamed digest and the verified copy *)





Lemma mkdir_from_frame (w : World) (d : path) (todo : list str) (r : result unit) (w' : World) :
  mkdir_from w d todo = (r, w') ->
  free w' = free w ∧ denied w' = denied w ∧ clock w' = clock w
  ∧ forall q : path, tree w' !! q = tree w !! q
              ∨ (tree w !! q = None ∧ tree w' !! q = Some Dir
                 ∧ (length q <= length d + length todo)%nat).
Proof.
  revert w d. induction todo as [|c todo IH]; intros w d Hrun; cbn [mkdir_from] in Hrun.
  - inversion Hrun; subst. repeat split; try done. intros q. by left.
  - destruct (tree w !! (d ++ [c])) as [[data t rd|]|] eqn:Hd.
    + inversion Hrun; subst. repeat split; try done. intros q. by left.
    + destruct (IH _ _ Hrun) as (Hf & Hde & Hc & Hq). repeat split; try done.
      intros q. destruct (Hq q) as [Heq|(Hn & Hs & Hlen)]; [by left |].
      right. repeat split; try done. rewrite length_app in Hlen. cbn [length] in *. lia.
    + destruct (bool_decide (d ++ [c] ∈ denied w)).
      * inversion Hrun; subst. repeat split; try done. intros q. by left.
      * destruct (IH _ _ Hrun) as (Hf & Hde & Hc & Hq). repeat split; try done.
        intros q. cbn [tree with_tree] in Hq.
        destruct (decide (q = d ++ [c])) as [->|Hne].
        -- right. split; [done |]. split.
           ++ destruct (Hq (d ++ [c])) as [Heq|(Hn & _)].
              ** by rewrite Heq, lookup_insert_eq.
              ** by rewrite lookup_insert_eq in Hn.
           ++ rewrite length_app. cbn [length]. lia.
        -- destruct (Hq q) as [Heq|(Hn & Hs & Hlen)].
           ++ left. by rewrite Heq, lookup_insert_ne.
           ++ right. rewrite lookup_insert_ne in Hn by done. repeat split; try done.
              rewrite length_app in Hlen. cbn [length] in *. lia.
Qed.

Lemma mkdir_from_keeps (w : World) (d : path) (todo : list str) (r : result unit) (w' : World)
    (q : path) (n : node) :
  mkdir_from w d todo = (r, w') -> tree w !! q = Some n -> tree w' !! q = Some n.
Proof.
  intros Hrun Hq. destruct (mkdir_from_frame _ _ _ _ _ Hrun) as (_ & _ & _ & H).
  destruct (H q) as [Heq|(Hn & _)]; [exact (eq_trans Heq Hq) |].
  pose proof (eq_trans (eq_sym Hn) Hq) as Hbad. discriminate Hbad.
Qed.

Lemma copy2_Ok_inv (E : Env) (w : World) (src dst : path) (u : unit) (w1 : World) :
  copy2 E w src dst = (Ok u, w1) ->
  exists data t,
    lookup_node w src = Some (File data t true)
    ∧ real_dst w src dst <> src
    ∧ is_dir w (real_dst w src dst) = false
    ∧ w1 = interference E
             (mkWorld (<[real_dst w src dst := File data t true]> (tree w))
                      (free w - length data) (denied w) (clock w)).
Proof.
  unfold copy2, read_bytes. intros Hrun.
  destruct (lookup_node w src) as [[data t r|]|] eqn:Hsrc.
  2,3: by destruct (_ && _ && _).
  assert (Hex : exists_ w src = true).
  { unfold exists_. rewrite Hsrc. by apply bool_decide_eq_true_2. }
  rewrite Hex in Hrun. cbn [andb] in Hrun.
  destruct (exists_ w (real_dst w src dst) && _) eqn:Hsame; [discriminate |].
  destruct r; [| discriminate].
  destruct (negb (is_dir w (parent _))); [discriminate |].
  destruct (is_dir w (real_dst w src dst)) eqn:Hdir; [discriminate |].
  destruct (bool_decide (_ ∈ denied w)); [discriminate |].
  destruct (_ <? _)%nat; [discriminate |].
  inversion Hrun; subst. exists data, t. repeat split; try done.
  intros Heq. rewrite Heq, Hex in Hsame. cbn [andb] in Hsame.
  by rewrite bool_decide_eq_true_2 in Hsame.
Qed.

Lemma copy2_keeps_source (E : Env) (w : World) (src dst : path) (r : result unit)
    (w1 : World) (n : node) :
  (forall w, interference E w = w) ->
  lookup_node w src = Some n ->
  copy2 E w src dst = (r, w1) ->
  tree w1 !! src = tree w !! src.
Proof.
  intros Hq Hsrc Hrun. destruct r as [u|e].
  - apply copy2_Ok_inv in Hrun as (data & t & _ & Hne & _ & ->).
    rewrite Hq. cbn [tree]. by rewrite lookup_insert_ne.
  - unfold copy2, read_bytes in Hrun. rewrite Hsrc in Hrun.
    assert (Hex : exists_ w src = true).
    { unfold exists_. rewrite Hsrc. by apply bool_decide_eq_true_2. }
    rewrite Hex in Hrun. cbn [andb] in Hrun.
    destruct (exists_ w (real_dst w src dst) && _) eqn:Hsame; [by inversion Hrun |].
    destruct n as [data t rd|]; [| by inversion Hrun].
    destruct rd; [| by inversion Hrun].
    destruct (negb (is_dir w (parent _))); [by inversion Hrun |].
    destruct (is_dir w (real_dst w src dst)); [by inversion Hrun |].
    destruct (bool_decide (_ ∈ denied w)); [by inversion Hrun |].
    destruct (_ <? _)%nat; [| discriminate].
    inversion Hrun; subst. cbn [tree]. rewrite lookup_insert_ne; [done |].
    intros Heq. rewrite Heq, Hex in Hsame. cbn [andb] in Hsame.
    by rewrite bool_decide_eq_true_2 in Hsame.
Qed.

Lemma lookup_node_tree (w : World) (p : path) (n : node) :
  tree w !! p = Some n -> p <> [] -> lookup_node w p = Some n.
Proof. intros H Hp. destruct p; [done | exact H]. Qed.




(** X3.  _copy_file_with_hash_verify never touches its source: whatever it
    returns or raises (copy error, hash mismatch, dry run), the source entry
    is in the tree afterwards exactly as before, provided nothing else
    writes to the tree meanwhile. *)
Theorem verified_copy_keeps_the_source
    (E : Env) (src dest : path) (dry_run : bool) (cb : option callback) (s : State)
    (n : node) (r : result (bool * option str)) (s' : State) :
  (forall w, interference E w = w) ->
  tree (world s) !! src = Some n ->
  src <> [] ->
  _copy_file_with_hash_verify E src dest dry_run cb s = (r, s') ->
  tree (world s') !! src = Some n.
Proof.
  intros Hquiet Hsrc Hne Hrun. destruct dry_run.
  { rewrite dry_run_copy_is_silent in Hrun. inversion Hrun; by subst. }
  destruct (copy_verify_outcome E src dest cb s) as (res & s1 & Hrun1 & _ & _ & Hout).
  rewrite Hrun in Hrun1. inversion Hrun1; subst r s1. clear Hrun1.
  destruct (_compute_file_hash E (world s) src) as [h|].
  2:{ destruct Hout as [_ ->]. exact Hsrc. }
  unfold copy_step in Hout.
  destruct (mkdir_parents (world s) (parent dest)) as [[[]|e] w0] eqn:Hmk.
  2:{ destruct Hout as [_ ->]. unfold mkdir_parents in Hmk.
      exact (mkdir_from_keeps _ _ _ _ _ _ _ Hmk Hsrc). }
  unfold mkdir_parents in Hmk.
  pose proof (mkdir_from_keeps _ _ _ _ _ _ _ Hmk Hsrc) as Hsrc0.
  pose proof (lookup_node_tree _ _ _ Hsrc0 Hne) as Hl0.
  destruct (copy2 E w0 src dest) as [[[]|e] w1] eqn:Hcp.
  2:{ destruct Hout as [_ ->].
      exact (eq_trans (copy2_keeps_source _ _ _ _ _ _ _ Hquiet Hl0 Hcp) Hsrc0). }
  pose proof (eq_trans (copy2_keeps_source _ _ _ _ _ _ _ Hquiet Hl0 Hcp) Hsrc0) as Hsrc1.
  destruct (bool_decide _).
  { destruct Hout as [_ ->]. exact Hsrc1. }
  destruct Hout as (_ & _ & ->).
  destruct (copy2_Ok_inv _ _ _ _ _ _ Hcp) as (data & t & Hl & Hrd & Hnd & Hw1).
  unfold unlink_missing_ok.
  destruct (lookup_node w1 dest) as [[d1 t1 r1|]|] eqn:Hld; cbn [snd]; try exact Hsrc1.
  destruct (bool_decide (dest ∈ denied w1)); cbn [snd]; [exact Hsrc1 |].
  cbn [tree with_tree]. rewrite lookup_delete_ne; [exact Hsrc1 |].
  intros ->. apply Hrd. unfold real_dst, is_dir. by rewrite Hl.
Qed.

Lemma verified_copy_keeps_the_source_witness :
  tree (world (_copy_file_with_hash_verify bare_env [py "s"; py "a.jpg"] [py "t"; py "a.jpg"]
                 false None (state_of tight_volume)).2) !! [py "s"; py "a.jpg"]
  = Some (file "photo").
Proof.
  eapply (verified_copy_keeps_the_source bare_env [py "s"; py "a.jpg"] [py "t"; py "a.jpg"]
            false None (state_of tight_volume)).
  - reflexivity.
  - vm_compute. reflexivity.
  - discriminate.
  - apply surjective_pairing.
Defined.

(** *** What a run of the organiser preserves *)

Section Frame.
Context (R : State -> State -> Prop) `{!Reflexive R} `{!Transitive R}.

Lemma preserves_ret {A} (a : A) : preserves R (mret a : M A).
Proof. intros s r s' H. inversion H; subst. reflexivity. Qed.

Lemma preserves_gets {A} (f : State -> A) : preserves R (gets f).
Proof. intros s r s' H. inversion H; subst. reflexivity. Qed.

Lemma preserves_probe {A} (f : World -> result A) : preserves R (probe f).
Proof. intros s r s' H. inversion H; subst. reflexivity. Qed.

Lemma preserves_bind {A B} (m : M A) (f : A -> M B) :
  preserves R m -> (forall a, preserves R (f a)) -> preserves R (m ≫= f).
Proof.
  intros Hm Hf s r s' Hrun. rewrite run_bind in Hrun.
  destruct (m s) as [[a|e] s1] eqn:Hms.
  - transitivity s1; [by eapply Hm | by eapply Hf].
  - inversion Hrun; subst. by eapply Hm.
Qed.

Lemma preserves_try {A} (m : M A) (caught : exn -> bool) (h : exn -> M A) :
  preserves R m -> (forall e, preserves R (h e)) -> preserves R (try_M m caught h).
Proof.
  intros Hm Hh s r s' Hrun. unfold try_M in Hrun.
  destruct (m s) as [[a|e] s1] eqn:Hms.
  - inversion Hrun; subst. by eapply Hm.
  - destruct (caught e).
    + transitivity s1; [by eapply Hm | by eapply Hh].
    + inversion Hrun; subst. by eapply Hm.
Qed.

(** What the organize pipeline does to the state: it marks, it reports,
    and, unless the run is dry, it acts on the tree. *)
Context (dry_run : bool).
Context (Hmark : forall k, preserves R (mark_processed k)).
Context (Happend : forall b e, preserves R (append_report b e)).
Context (Hworld : dry_run = true ∨ forall f, preserves R (on_world f)).

Lemma preserves_try_move (target_dir src dest : path) :
  dry_run = false -> preserves R (try_move target_dir src dest).
Proof.
  intros Hdry. destruct Hworld as [->|Hw]; [discriminate |].
  unfold try_move. apply preserves_try; [| intros e; apply preserves_ret].
  repeat (apply preserves_bind; [apply Hw | intros _]). apply preserves_ret.
Qed.

Lemma preserves_move_related (E : Env) (o : Organizer) (target_dir : path)
    (ub : option str) (report_list : bool) (related : list path) :
  preserves R (move_related E o target_dir ub dry_run report_list related).
Proof.
  induction related as [|r related IH]; cbn [move_related]; [apply preserves_ret |].
  apply preserves_bind; [apply preserves_gets | intros is_done].
  destruct is_done; [exact IH |].
  apply preserves_bind; [apply preserves_gets | intros [r_dest|]].
  - apply preserves_bind.
    + destruct (negb dry_run && move_files (config o)) eqn:Hc; [| apply Happend].
      apply andb_true_iff in Hc as [Hd _]. apply negb_true_iff in Hd.
      apply preserves_bind; [by apply preserves_try_move | intros [e|]]; apply Happend.
    + intros _. apply preserves_bind; [apply Hmark | intros _; exact IH].
  - apply preserves_bind; [apply Hmark | intros _; exact IH].
Qed.

Lemma preserves_classify_and_place (E : Env) (o : Organizer) (filepath output_root : path)
    (report_list : bool) :
  preserves R (classify_and_place E o filepath output_root dry_run report_list).
Proof.
  unfold classify_and_place.
  apply preserves_bind; [apply preserves_probe | intros [mt|]]; [| apply preserves_ret].
  apply preserves_bind; [apply preserves_probe | intros shoot_date].
  apply preserves_bind; [apply preserves_probe | intros device].
  apply preserves_bind; [apply preserves_probe | intros ub].
  apply preserves_bind; [apply preserves_gets | intros [primary_dest|]].
  - apply preserves_bind; [apply preserves_probe | intros related].
    apply preserves_bind.
    + destruct (negb dry_run && move_files (config o)) eqn:Hc.
      * apply andb_true_iff in Hc as [Hd _]. apply negb_true_iff in Hd.
        apply preserves_bind; [by apply preserves_try_move | intros [e|]];
          (apply preserves_bind; [apply Happend | intros _; apply preserves_ret]).
      * apply preserves_bind; [apply Happend | intros _; apply preserves_ret].
    + intros [|]; [| apply preserves_ret].
      apply preserves_bind; [apply preserves_move_related | intros _].
      apply preserves_bind; [apply Hmark | intros _; apply preserves_ret].
  - apply preserves_bind; [apply Happend | intros _].
    apply preserves_bind; [apply Hmark | intros _; apply preserves_ret].
Qed.

Lemma preserves_process_file (E : Env) (o : Organizer) (filepath output_root : path)
    (report_list : bool) :
  preserves R (process_file E o filepath output_root dry_run report_list).
Proof.
  unfold process_file. apply preserves_bind; [apply preserves_gets | intros is_done].
  destruct (is_done && _).
  - apply preserves_bind; [apply Happend | intros _; apply preserves_ret].
  - apply preserves_classify_and_place.
Qed.


End Frame.


Lemma processed_grows_mark (k : str) : preserves processed_grows (mark_processed k).
Proof. intros s r s' H. inversion H; subst. unfold processed_grows. cbn. set_solver. Qed.
Lemma processed_grows_append (b : bool) (e : entry) :
  preserves processed_grows (append_report b e).
Proof. intros s r s' H. inversion H; subst. unfold processed_grows. by destruct b. Qed.
Lemma processed_grows_on_world (f : World -> result unit * World) :
  preserves processed_grows (on_world f).
Proof.
  intros s r s' H. unfold on_world in H. destruct (f (world s)).
  inversion H; subst. unfold processed_grows. done.
Qed.



Lemma ensures_bind {A B} (Q : B -> State -> Prop) (m : M A) (f : A -> M B) :
  (forall a, ensures Q (f a)) -> ensures Q (m ≫= f).
Proof.
  intros Hf s b s' Hrun. apply bind_Ok_inv in Hrun as (a & s1 & _ & Hrun). by eapply Hf.
Qed.

Lemma ensures_mark_true (Q : bool -> State -> Prop) (k : str) :
  (forall s, k ∈ processed s -> Q true s) ->
  ensures Q (mark_processed k ≫= fun _ => mret true).
Proof.
  intros HQ s a s' Hrun. inversion Hrun; subst. apply HQ. cbn. set_solver.
Qed.

Lemma ensures_false (Q : bool -> State -> Prop) :
  (forall s, Q false s) -> ensures Q (mret false).
Proof. intros HQ s a s' Hrun. inversion Hrun; subst. apply HQ. Qed.

Lemma classify_and_place_marks (E : Env) (o : Organizer) (filepath output_root : path)
    (dry_run report_list : bool) :
  ensures (fun b s' => b = true -> to_str (resolve E filepath) ∈ processed s')
          (classify_and_place E o filepath output_root dry_run report_list).
Proof.
  unfold classify_and_place.
  apply ensures_bind. intros [mt|]; [| by apply ensures_false].
  do 3 (apply ensures_bind; intros ?).
  apply ensures_bind. intros [primary_dest|].
  - apply ensures_bind. intros related. apply ensures_bind. intros [|].
    + apply ensures_bind. intros _. by apply ensures_mark_true.
    + by apply ensures_false.
  - apply ensures_bind. intros _. by apply ensures_mark_true.
Qed.

(** X5.  process_file only ever adds to the processed set, and whenever it
    returns True the resolved path of the file is in the processed set
    afterwards (also in a dry run, also when move_files is off, and also
    when a related file could not be moved). *)
Theorem process_file_marks_what_it_handles
    (E : Env) (o : Organizer) (filepath output_root : path) (dry_run report_list : bool)
    (s : State) (r : result bool) (s' : State) :
  process_file E o filepath output_root dry_run report_list s = (r, s') ->
  processed s ⊆ processed s'
  ∧ (r = Ok true -> to_str (resolve E filepath) ∈ processed s').
Proof.
  intros Hrun. split.
  - revert Hrun. apply (preserves_process_file processed_grows dry_run).
    + apply processed_grows_mark.
    + apply processed_grows_append.
    + right. apply processed_grows_on_world.
  - intros ->. unfold process_file in Hrun. rewrite run_bind in Hrun. unfold gets in Hrun.
    destruct (bool_decide (to_str (resolve E filepath) ∈ processed s)) eqn:Hd.
    + destruct (already_sorted E o filepath output_root); cbn [andb] in Hrun.
      * apply bool_decide_eq_true in Hd. inversion Hrun; subst. by destruct report_list.
      * by apply (classify_and_place_marks _ _ _ _ _ _ _ _ _ Hrun).
    + cbn [andb] in Hrun. by apply (classify_and_place_marks _ _ _ _ _ _ _ _ _ Hrun).
Qed.

Lemma process_file_marks_what_it_handles_witness :
  to_str (resolve bare_env [py "s"; py "a.jpg"])
  ∈ processed (process_file bare_env (init default_config) [py "s"; py "a.jpg"] [py "out"]
                 false true (state_of small_tree)).2.
Proof.
  eapply (proj2 (process_file_marks_what_it_handles bare_env (init default_config)
                   [py "s"; py "a.jpg"] [py "out"] false true (state_of small_tree) _ _
                   (surjective_pairing _))).
  vm_compute. reflexivity.
Defined.

(** *** Deduplication and related files *)

Lemma dedupe_keys (files : list path) (seen : gset (path * str)) :
  NoDup (map stem_dir (dedupe files seen))
  ∧ forall q, q ∈ dedupe files seen -> stem_dir q ∉ seen.
Proof.
  revert seen. induction files as [|p files IH]; intros seen; cbn [dedupe].
  - split; [constructor | intros q Hq; by apply elem_of_nil in Hq].
  - fold (stem_dir p). destruct (bool_decide (stem_dir p ∈ seen)) eqn:Hp; [apply IH |].
    apply bool_decide_eq_false in Hp.
    destruct (IH ({[stem_dir p]} ∪ seen)) as [Hnd Hout]. split.
    + cbn [map]. constructor; [| exact Hnd].
      intros Hin. apply list_elem_of_In, in_map_iff in Hin as (q & Hq & Hin).
      apply list_elem_of_In in Hin. apply Hout in Hin. rewrite Hq in Hin.
      apply Hin, elem_of_union. left. by apply elem_of_singleton.
    + intros q Hq. apply elem_of_cons in Hq as [->|Hq]; [done |].
      apply Hout in Hq. intros Hs. apply Hq, elem_of_union. by right.
Qed.

Lemma dedupe_covers (files : list path) (seen : gset (path * str)) (p : path) :
  p ∈ files ->
  stem_dir p ∈ seen ∨ exists q, q ∈ dedupe files seen ∧ stem_dir q = stem_dir p.
Proof.
  revert seen. induction files as [|f files IH]; intros seen Hp; [by apply elem_of_nil in Hp |].
  cbn [dedupe]. fold (stem_dir f).
  apply elem_of_cons in Hp as [->|Hp].
  - destruct (bool_decide (stem_dir f ∈ seen)) eqn:Hf.
    + left. by apply bool_decide_eq_true in Hf.
    + right. exists f. split; [by left | done].
  - destruct (bool_decide (stem_dir f ∈ seen)) eqn:Hf.
    + apply IH, Hp.
    + destruct (IH ({[stem_dir f]} ∪ seen) Hp) as [Hin|(q & Hq & Hk)].
      * apply elem_of_union in Hin as [Hin|Hin]; [| by left].
        apply elem_of_singleton in Hin. right. exists f. split; [by left | done].
      * right. exists q. split; [by right | done].
Qed.

Lemma dedupe_first_wins (pre post : list path) (p : path) (seen : gset (path * str)) :
  stem_dir p ∉ seen ->
  (forall q, q ∈ pre -> stem_dir q <> stem_dir p) ->
  p ∈ dedupe (pre ++ p :: post) seen.
Proof.
  revert seen. induction pre as [|f pre IH]; intros seen Hs Hpre; cbn [app dedupe].
  - fold (stem_dir p). rewrite (bool_decide_eq_false_2 _ Hs). by left.
  - fold (stem_dir f). assert (Hf : stem_dir f <> stem_dir p) by (apply Hpre; by left).
    assert (Hrest : forall q, q ∈ pre -> stem_dir q <> stem_dir p)
      by (intros q Hq; apply Hpre; by right).
    destruct (bool_decide (stem_dir f ∈ seen)); [by apply IH |].
    right. apply IH; [| done].
    intros Hin. apply elem_of_union in Hin as [Hin|Hin]; [| done].
    apply elem_of_singleton in Hin. congruence.
Qed.

(** X6.  The list of files to process, obtained by sorting the collected
    files by (parent, name) and keeping the first of each (parent, stem),
    holds no two files with the same parent and stem, holds only collected
    files, represents every collected file by one with its parent and stem,
    and keeps exactly the files that come first in the sorted order among
    those sharing their parent and stem. *)
Theorem to_process_has_one_file_per_stem (collected : list path) :
  NoDup (map stem_dir (to_process_of collected))
  ∧ (forall p, p ∈ to_process_of collected -> p ∈ collected)
  ∧ (forall p, p ∈ collected ->
       exists q, q ∈ to_process_of collected
                 ∧ parent q = parent p ∧ stem q = stem p)
  ∧ (forall pre p post,
       merge_sort key_le collected = pre ++ p :: post ->
       (forall q, q ∈ pre -> stem_dir q <> stem_dir p) ->
       p ∈ to_process_of collected).
Proof.
  unfold to_process_of. split; [apply dedupe_keys |]. split; [| split].
  - intros p Hp. apply dedupe_subset in Hp. by rewrite merge_sort_Permutation in Hp.
  - intros p Hp. rewrite <- (merge_sort_Permutation key_le) in Hp.
    destruct (dedupe_covers _ ∅ p Hp) as [Hin|(q & Hq & Hk)]; [set_solver |].
    exists q. injection Hk as Hk1 Hk2. done.
  - intros pre p post -> Hpre. apply dedupe_first_wins; [set_solver | done].
Qed.

Lemma startswith_spec (s p : str) : startswith s p = true <-> exists t, s = p ++ t.
Proof.
  revert s. induction p as [|a p IH]; intros s.
  - destruct s; cbn; (split; [intros _; by eexists | done]).
  - destruct s as [|b s]; cbn [startswith].
    + split; [discriminate | intros [t Ht]; discriminate].
    + rewrite andb_true_iff, N.eqb_eq, IH. split.
      * intros [-> [t ->]]. by exists t.
      * intros [t [= -> ->]]. split; [done | by exists t].
Qed.

Lemma iterdir_spec (w : World) (d f : path) :
  f ∈ iterdir w d <-> f <> [] ∧ parent f = d ∧ is_Some (tree w !! f).
Proof.
  unfold iterdir. rewrite list_elem_of_filter, elem_of_elements, elem_of_dom. tauto.
Qed.

Lemma is_file_in_tree (w : World) (f : path) :
  is_file w f = true -> f <> [] ∧ is_Some (tree w !! f).
Proof.
  unfold is_file, lookup_node. destruct f as [|c f]; [discriminate |].
  intros H. split; [done |].
  match type of H with
  | context [match ?x with _ => _ end] => destruct x as [n|] eqn:Hl
  end; [by exists n | discriminate H].
Qed.

(** X7.  When find_related_files returns, the list has no repetition, is
    empty when related_same_stem is off, and otherwise holds exactly the
    regular files of the folder of the primary file, other than the primary
    file itself, that are not of a leave-in-place type and whose stem equals
    the stem of the primary file or extends it, or is extended by it, with
    an underscore or a space. *)
Theorem related_files_are_siblings_with_related_stems
    (w : World) (o : Organizer) (primary : path) (related : list path) :
  find_related_files w o primary = Ok related ->
  NoDup related
  ∧ (related_same_stem (config o) = false -> related = [])
  ∧ (forall f : path,
       f ∈ related <->
       related_same_stem (config o) = true
       ∧ parent f = parent primary ∧ f <> primary
       ∧ is_file w f = true
       ∧ should_leave_in_place o f = false
       ∧ related_stems (stem f) (stem primary)).
Proof.
  unfold find_related_files. intros Hrun.
  destruct (related_same_stem (config o)); cbn [negb] in Hrun.
  2:{ inversion Hrun; subst. split; [constructor |]. split; [done |].
      intros f. split; [intros H; by apply elem_of_nil in H | intros [? _]; discriminate]. }
  destruct (negb (is_dir w (parent primary))); [discriminate |].
  inversion Hrun; subst. clear Hrun. split.
  { apply NoDup_filter. unfold iterdir. apply NoDup_filter, NoDup_elements. }
  split; [discriminate |].
  intros f. rewrite list_elem_of_filter, iterdir_spec. unfold related_stems.
  rewrite !orb_true_iff, !startswith_spec. split.
  - intros ((Hfile & Hne & Hleave & Hstem) & Hnil & Hpar & Hex).
    apply Is_true_true in Hfile.
    split; [done |]. split; [done |]. split; [done |]. split; [done |]. split; [done |].
    destruct Hstem as [Heq|[[[t Ht]|[t Ht]]|[[t Ht]|[t Ht]]]].
    + by left.
    + right. exists 95, t. split; [by left |]. right. rewrite <- app_assoc in Ht; exact Ht.
    + right. exists 95, t. split; [by left |]. left. rewrite <- app_assoc in Ht; exact Ht.
    + right. exists 32, t. split; [by right |]. right. rewrite <- app_assoc in Ht; exact Ht.
    + right. exists 32, t. split; [by right |]. left. rewrite <- app_assoc in Ht; exact Ht.
  - intros (_ & Hpar & Hne & Hfile & Hleave & Hstem).
    assert (Hex : f <> [] ∧ is_Some (tree w !! f)).
    { by apply is_file_in_tree. }
    destruct Hex as [Hnil Hex]. split; [| done].
    split; [by apply Is_true_true |]. split; [done |]. split; [done |].
    destruct Hstem as [Heq|(sep & t & Hsep & Ht)]; [by left |]. right.
    destruct Hsep as [-> | ->]; [left | right];
      (destruct Ht as [Ht|Ht]; [right | left]); exists t; rewrite <- app_assoc; exact Ht.
Qed.

Lemma related_stems_sym (a b : str) : related_stems a b -> related_stems b a.
Proof.
  intros [-> | (sep & t & Hsep & Ht)]; [by left |].
  right. exists sep, t. split; [done |]. tauto.
Qed.

(** *** The recursive collection *)




(** *** Names of folders and files *)

Lemma is_forbidden_underscore : is_forbidden 95 = false.
Proof. reflexivity. Qed.

Lemma unknown_device_clean :
  Forall (fun c => is_forbidden_or_space c = false) unknown_device_literal.
Proof.
  apply Forall_forall. intros c Hc.
  assert (H : forallb (fun c => negb (is_forbidden_or_space c)) unknown_device_literal = true)
    by (vm_compute; reflexivity).
  rewrite forallb_forall in H. apply negb_true_iff, H. by apply list_elem_of_In.
Qed.

Lemma sanitize_folder_name_spec (name : str) :
  _sanitize_folder_name name <> []
  ∧ (length (_sanitize_folder_name name) <= 80)%nat
  ∧ Forall (fun c => is_forbidden c = false) (_sanitize_folder_name name).
Proof.
  unfold _sanitize_folder_name.
  destruct (bool_decide (name = []) || bool_decide (strip name = [])) eqn:Hempty.
  { split; [discriminate |]. split; [vm_compute; lia |].
    eapply Forall_impl; [apply unknown_device_clean |].
    intros c Hc. unfold is_forbidden_or_space in Hc. by apply orb_false_iff in Hc as [? _]. }
  apply orb_false_iff in Hempty as [_ Hstrip]. apply bool_decide_eq_false in Hstrip.
  set (s := map (fun c : char => if is_forbidden c then 95 else c) (strip name)).
  assert (Hs : s <> []).
  { subst s. destruct (strip name); [done | discriminate]. }
  assert (Hclean : Forall (fun c => is_forbidden c = false) s).
  { subst s. apply Forall_map, Forall_forall. intros c _. cbn.
    destruct (is_forbidden c) eqn:Hc; [reflexivity | exact Hc]. }
  destruct (80 <? length s)%nat eqn:Hlen.
  - split; [destruct s; [done | discriminate] |].
    split; [rewrite length_take; lia |]. by apply Forall_take.
  - apply Nat.ltb_ge in Hlen. done.
Qed.

Lemma clean_is_relative (s : str) :
  Forall (fun c => is_forbidden c = false) s -> startswith s [47] = false.
Proof.
  intros Hclean. destruct s as [|c s]; [done |].
  apply Forall_cons in Hclean as [Hc _]. cbn [startswith].
  destruct (N.eqb_spec 47 c) as [<-|Hne47]; [discriminate Hc | reflexivity].
Qed.

Lemma clean_is_one_segment (s : str) (cur : str) :
  Forall (fun c => is_forbidden c = false) s -> split_on 47 s cur = [rev cur ++ s].
Proof.
  revert cur. induction s as [|c s IH]; intros cur Hclean; cbn [split_on].
  - by rewrite app_nil_r.
  - apply Forall_cons in Hclean as [Hc Hclean].
    destruct (N.eqb_spec c 47) as [->|Hne47]; [discriminate Hc |].
    rewrite IH by done. cbn [rev]. by rewrite <- app_assoc.
Qed.

(** X9.  For every input, _sanitize_folder_name returns a non-empty string
    of at most 80 code points that holds none of the nine forbidden
    characters; having no slash, it is a single path component. *)
Theorem sanitized_folder_name_is_a_clean_component (name : str) :
  _sanitize_folder_name name <> []
  ∧ (length (_sanitize_folder_name name) <= 80)%nat
  ∧ Forall (fun c => is_forbidden c = false) (_sanitize_folder_name name)
  ∧ split_on 47 (_sanitize_folder_name name) [] = [_sanitize_folder_name name].
Proof.
  destruct (sanitize_folder_name_spec name) as (Hne & Hlen & Hclean).
  repeat split; try done. by rewrite clean_is_one_segment.
Qed.

Lemma lstrip_by_suffix (f : char -> bool) (s : str) :
  exists pre, s = pre ++ lstrip_by f s.
Proof.
  induction s as [|c s [pre IH]]; [by exists [] |]. cbn [lstrip_by].
  destruct (f c); [| by exists []]. exists (c :: pre). cbn. by rewrite <- IH.
Qed.

Lemma lstrip_by_head (f : char -> bool) (s : str) (c : char) (t : str) :
  lstrip_by f s = c :: t -> f c = false.
Proof.
  induction s as [|a s IH]; cbn [lstrip_by]; [discriminate |].
  destruct (f a) eqn:Ha; [exact IH |]. by intros [= <- _].
Qed.

Lemma rstrip_by_prefix (f : char -> bool) (s : str) :
  exists post, s = rstrip_by f s ++ post.
Proof.
  unfold rstrip_by. destruct (lstrip_by_suffix f (rev s)) as [pre Hpre].
  exists (rev pre). rewrite <- rev_app_distr, <- Hpre. by rewrite rev_involutive.
Qed.

Lemma strip_by_Forall (P : char -> Prop) (f : char -> bool) (s : str) :
  Forall P s -> Forall P (strip_by f s).
Proof.
  intros Hs. unfold strip_by.
  destruct (lstrip_by_suffix f s) as [pre Hpre].
  destruct (rstrip_by_prefix f (lstrip_by f s)) as [post Hpost].
  rewrite Hpre, Hpost in Hs. apply Forall_app in Hs as [_ Hs]. by apply Forall_app in Hs as [Hs _].
Qed.

Lemma strip_by_head (f : char -> bool) (s : str) (c : char) (t : str) :
  strip_by f s = c :: t -> f c = false.
Proof.
  unfold strip_by. intros Hs.
  destruct (rstrip_by_prefix f (lstrip_by f s)) as [post Hpost].
  rewrite Hs in Hpost. by eapply lstrip_by_head.
Qed.

Lemma sub_runs_clean (s : str) (in_run : bool) :
  Forall (fun c => is_forbidden_or_space c = false) (sub_runs s in_run).
Proof.
  revert in_run. induction s as [|c s IH]; intros in_run; cbn [sub_runs]; [constructor |].
  destruct (is_forbidden_or_space c) eqn:Hc.
  - destruct in_run; [apply IH |]. constructor; [reflexivity | apply IH].
  - constructor; [exact Hc | apply IH].
Qed.

Lemma join_Forall (P : char -> Prop) (sep : str) (parts : list str) :
  Forall P sep -> Forall (Forall P) parts -> Forall P (join sep parts).
Proof.
  intros Hsep Hparts. induction Hparts as [|p parts Hp Hparts IH]; cbn [join]; [constructor |].
  destruct parts as [|q parts]; [exact Hp |].
  apply Forall_app. split; [exact Hp |]. apply Forall_app. split; [exact Hsep | exact IH].
Qed.

Lemma no_date_clean :
  Forall (fun c => is_forbidden_or_space c = false) (py "无日期").
Proof.
  apply Forall_forall. intros c Hc.
  assert (H : forallb (fun c => negb (is_forbidden_or_space c)) (py "无日期") = true)
    by (vm_compute; reflexivity).
  rewrite forallb_forall in H. apply negb_true_iff, H. by apply list_elem_of_In.
Qed.

Lemma or_else_Forall (P : char -> Prop) (s fallback : str) :
  Forall P s -> Forall P fallback -> Forall P (or_else s fallback).
Proof. intros Hs Hf. unfold or_else. by destruct (bool_decide (s = [])). Qed.

Lemma build_unified_basename_clean (device date_str resolution_str fps_str : str) :
  Forall (fun c => is_forbidden_or_space c = false)
         (_build_unified_basename device date_str resolution_str fps_str).
Proof.
  unfold _build_unified_basename.
  set (parts := [_; _] ++ _ ++ _).
  assert (Hparts : Forall (Forall (fun c => is_forbidden_or_space c = false)) parts).
  { subst parts. apply Forall_app. split.
    - repeat constructor; apply or_else_Forall;
        auto using sub_runs_clean, unknown_device_clean, no_date_clean.
    - apply Forall_app. split.
      + destruct (_ && _); repeat constructor. apply sub_runs_clean.
      + destruct (negb _); repeat constructor. apply sub_runs_clean. }
  apply Forall_take, strip_by_Forall, join_Forall; [| exact Hparts]. by repeat constructor.
Qed.

(** X10.  For all inputs, _build_unified_basename returns a string of at
    most 120 code points that holds no forbidden character and no white
    space and does not begin with an underscore. *)
Theorem unified_basename_is_a_clean_name (device date_str resolution_str fps_str : str) :
  (length (_build_unified_basename device date_str resolution_str fps_str) <= 120)%nat
  ∧ Forall (fun c => is_forbidden c = false ∧ is_space c = false)
      (_build_unified_basename device date_str resolution_str fps_str)
  ∧ startswith (_build_unified_basename device date_str resolution_str fps_str) [95] = false.
Proof.
  split; [unfold _build_unified_basename; rewrite length_take; lia |]. split.
  - eapply Forall_impl; [apply build_unified_basename_clean |].
    intros c Hc. unfold is_forbidden_or_space in Hc. by apply orb_false_iff in Hc.
  - unfold _build_unified_basename.
    destruct (strip_chars [95] (join [95] _)) as [|c t] eqn:Hs; [reflexivity |].
    apply strip_by_head in Hs. apply bool_decide_eq_false in Hs.
    cbn [take startswith]. destruct (N.eqb_spec 95 c) as [<-|Hne]; [| reflexivity].
    exfalso. apply Hs. by left.
Qed.

Lemma joinpath_relative (d : path) (s : str) :
  startswith s [47] = false -> joinpath d s = d ++ segments s.
Proof. intros Hs. unfold joinpath. by rewrite Hs. Qed.

(** X11.  When neither the date string nor any of the four configured
    subfolder names begins with a slash, build_target_dir returns the output
    root followed by further components; the device folder can never make
    the path absolute. *)
Theorem target_dir_is_below_the_output_root
    (o : Organizer) (info : MediaInfo) (output_root : path) :
  startswith (mi_date_str info) [47] = false ->
  startswith (image_subfolder (config o)) [47] = false ->
  startswith (video_subfolder (config o)) [47] = false ->
  startswith (panoramic_subfolder (config o)) [47] = false ->
  startswith (audio_subfolder (config o)) [47] = false ->
  exists below, build_target_dir o info output_root = output_root ++ below.
Proof.
  intros Hdate Himg Hvid Hpan Haud. unfold build_target_dir.
  set (sub := match mi_media_type info with
              | image => _ | video => _ | panoramic_video => _ | audio => _ end).
  assert (Hsub : startswith sub [47] = false).
  { subst sub. by destruct (mi_media_type info). }
  rewrite (joinpath_relative output_root) by done.
  rewrite (joinpath_relative _ sub) by done.
  destruct (sanitize_folder_name_spec (mi_device info)) as (_ & _ & Hclean).
  destruct (_ && _).
  - rewrite joinpath_relative by by apply clean_is_relative.
    rewrite <- !app_assoc. by eexists.
  - rewrite <- !app_assoc. by eexists.
Qed.

Lemma target_dir_is_below_the_output_root_witness :
  exists below,
    build_target_dir (init default_config)
      (mkMediaInfo [py "s"; py "a.jpg"] image None (py "Canon EOS") (py "2024-05-01"))
      [py "out"]
    = [py "out"] ++ below.
Proof.
  apply (target_dir_is_below_the_output_root (init default_config)
           (mkMediaInfo [py "s"; py "a.jpg"] image None (py "Canon EOS") (py "2024-05-01"))
           [py "out"]); vm_compute; reflexivity.
Defined.

Lemma related_files_are_siblings_with_related_stems_witness :
  find_related_files crowded_dir (init default_config) [py "out"; py "X.jpg"]
  = Ok [[py "out"; py "X_1.jpg"]]
  ∧ NoDup [[py "out"; py "X_1.jpg"]].
Proof.
  assert (H : find_related_files crowded_dir (init default_config) [py "out"; py "X.jpg"]
              = Ok [[py "out"; py "X_1.jpg"]]) by (vm_compute; reflexivity).
  split; [exact H |].
  exact (proj1 (related_files_are_siblings_with_related_stems crowded_dir (init default_config)
                  [py "out"; py "X.jpg"] [[py "out"; py "X_1.jpg"]] H)).
Defined.

(** *** The counters of the super copy *)

Lemma accounted_step_op (l : Locals) (d : Z) : accounted l -> accounted (step_op l d).
Proof. by intros H. Qed.

Lemma accounted_add_media_ok (l : Locals) (src dest : path) (E : Env) :
  accounted l -> accounted (add_media_ok l src dest E).
Proof.
  intros (Hok & Hfail & Hskip). unfold accounted, add_media_ok.
  cbn [l_ok l_fail l_skip l_report media_ok media_fail media_skip other_ok].
  rewrite length_app. cbn [length]. lia.
Qed.

Lemma accounted_add_media_fail (l : Locals) (count : bool) (src : path) (err : str) :
  accounted l -> accounted (add_media_fail l count src err).
Proof.
  intros (Hok & Hfail & Hskip). unfold accounted, add_media_fail.
  cbn [l_ok l_fail l_skip l_report media_ok media_fail media_skip other_ok].
  rewrite length_app. cbn [length]. destruct count; lia.
Qed.

Lemma accounted_add_skip (l : Locals) (e : option (str * str)) :
  accounted l -> accounted (add_skip l e).
Proof.
  intros (Hok & Hfail & Hskip). unfold accounted, add_skip.
  cbn [l_ok l_fail l_skip l_report media_ok media_fail media_skip other_ok].
  rewrite length_app. destruct e; cbn [length]; lia.
Qed.

Lemma accounted_add_other_ok (l : Locals) (rel : str) :
  accounted l -> accounted (add_other_ok l rel).
Proof.
  intros (Hok & Hfail & Hskip). unfold accounted, add_other_ok.
  cbn [l_ok l_fail l_skip l_report media_ok media_fail media_skip other_ok].
  rewrite length_app. cbn [length]. lia.
Qed.

Lemma accounted_add_other_fail (l : Locals) (rel err : str) :
  accounted l -> accounted (add_other_fail l rel err).
Proof. by intros H. Qed.

Lemma copy_related_accounted (E : Env) (o : Organizer) (target_dir : path) (ub : option str)
    (dry_run : bool) (cb : option callback) (total : Z) (related : list path) (l : Locals) :
  accounted l ->
  returns accounted (copy_related E o target_dir ub dry_run cb total related l).
Proof.
  revert l. induction related as [|r related IH]; intros l Hl; cbn [copy_related].
  - by apply returns_ret.
  - apply returns_bind_gets. intros s0.
    destruct (resolve_destination E (world s0) o target_dir r ub) as [r_dest|].
    + apply returns_bind. intros [good err]. apply returns_bind. intros _.
      apply IH. destruct good;
        auto using accounted_add_media_ok, accounted_add_media_fail, accounted_step_op.
    + apply IH. auto using accounted_step_op.
Qed.

Lemma copy_all_accounted (E : Env) (o : Organizer) (target : path) (dry_run : bool)
    (cb : option callback) (total : Z) (files : list path) (l : Locals) :
  accounted l ->
  returns accounted (copy_all E o target dry_run cb total files l).
Proof.
  revert l. induction files as [|fp files IH]; intros l Hl; cbn [copy_all].
  - by apply returns_ret.
  - apply returns_bind. intros [mt|]; [| by apply IH, accounted_add_skip].
    apply returns_bind. intros shoot_date. apply returns_bind. intros device.
    apply returns_bind. intros ub. apply returns_bind_gets. intros s0.
    destruct (resolve_destination E (world s0) o _ fp ub) as [primary_dest|];
      [| by apply IH, accounted_add_skip].
    apply returns_bind. intros [good err]. apply returns_bind. intros _.
    destruct good; cbn [negb].
    + apply returns_bind. intros related.
      eapply returns_bind_with; [| apply IH].
      apply copy_related_accounted.
      auto using accounted_add_media_ok, accounted_step_op.
    + apply IH. auto using accounted_add_media_fail, accounted_step_op.
Qed.

Lemma copy_others_accounted (E : Env) (dry_run : bool) (cb : option callback) (total : Z)
    (others : list (path * list str * path)) (l : Locals) :
  accounted l -> returns accounted (copy_others E dry_run cb total others l).
Proof.
  revert l. induction others as [|[[f rel] dest_file] others IH]; intros l Hl;
    cbn [copy_others].
  - by apply returns_ret.
  - apply returns_bind. intros _. destruct dry_run.
    + apply IH. auto using accounted_add_other_ok, accounted_step_op.
    + apply returns_bind. intros copied. apply IH.
      destruct copied;
        auto using accounted_add_other_ok, accounted_add_other_fail, accounted_step_op.
Qed.

(** X12.  When super_copy_and_organize returns with a report, its ok counter
    is the number of entries of media_ok and other_ok together, its fail
    counter is at most the number of entries of media_fail (failures of
    related files are listed but not counted, failures of other files are
    not counted at all), and every listed skip is counted; when it returns
    without a report, the three counters are zero. *)
Theorem super_copy_counts_match_the_report
    (E : Env) (o : Organizer) (source target : path) (dry_run : bool)
    (progress_cb : option callback) (s : State) (stats : Stats) (s' : State) :
  super_copy_and_organize E o source target dry_run progress_cb s = (Ok stats, s') ->
  match stats_report stats with
  | Some rep =>
    ok stats = (length (media_ok rep) + length (other_ok rep))%nat
    ∧ (fail stats <= length (media_fail rep))%nat
    ∧ (length (media_skip rep) <= skip stats)%nat
  | None => ok stats = 0%nat ∧ fail stats = 0%nat ∧ skip stats = 0%nat
  end.
Proof.
  revert s stats s'.
  change (returns (fun stats =>
            match stats_report stats with
            | Some rep =>
              ok stats = (length (media_ok rep) + length (other_ok rep))%nat
              ∧ (fail stats <= length (media_fail rep))%nat
              ∧ (length (media_skip rep) <= skip stats)%nat
            | None => ok stats = 0%nat ∧ fail stats = 0%nat ∧ skip stats = 0%nat
            end) (super_copy_and_organize E o source target dry_run progress_cb)).
  unfold super_copy_and_organize.
  apply returns_bind. intros okay. destruct (negb okay); [by apply returns_ret |].
  apply returns_bind. intros _. apply returns_bind. intros [collected|];
    [| by apply returns_ret].
  destruct (bool_decide _); [by apply returns_ret |].
  apply returns_bind. intros total_ops. apply returns_bind. intros _.
  eapply returns_bind_with.
  { apply copy_all_accounted. repeat split; cbn; lia. }
  intros l Hl. apply returns_bind. intros others. apply returns_bind. intros _.
  eapply returns_bind_with; [apply copy_others_accounted; exact Hl |].
  intros l' Hl'. apply returns_bind. intros _. apply returns_ret. exact Hl'.
Qed.

Lemma super_copy_counts_match_the_report_witness :
  match (super_copy_and_organize bare_env (init default_config) [py "s"] [py "t"] false None
           (state_of small_tree)).1 with
  | Ok stats =>
    match stats_report stats with
    | Some rep =>
      ok stats = (length (media_ok rep) + length (other_ok rep))%nat
      ∧ (fail stats <= length (media_fail rep))%nat
      ∧ (length (media_skip rep) <= skip stats)%nat
    | None => ok stats = 0%nat ∧ fail stats = 0%nat ∧ skip stats = 0%nat
    end
  | Raise _ => True
  end.
Proof.
  destruct (super_copy_and_organize bare_env (init default_config) [py "s"] [py "t"] false None
              (state_of small_tree)) as [[stats|e] s'] eqn:Hrun; [| exact I].
  exact (super_copy_counts_match_the_report _ _ _ _ _ _ _ _ _ Hrun).
Defined.

(** *** The overflow folder *)


(** *** Removing empty folders *)

Lemma pruned_refl (root : path) (s : State) : pruned root s s.
Proof.
  split; [by left |]. split; [by destruct s as [[] ? ? ?] |]. done.
Qed.

Lemma pruned_trans (root : path) (s1 s2 s3 : State) :
  pruned root s1 s2 -> pruned root s2 s3 -> pruned root s1 s3.
Proof.
  intros (H1 & Hw1 & Hp1 & He1 & Hr1) (H2 & Hw2 & Hp2 & He2 & Hr2).
  split; [| split; [| split; [congruence | split; congruence]]].
  - intros p. destruct (H2 p) as [Heq2|(Hn & Hd & Hne & Hrel)].
    + rewrite Heq2. apply H1.
    + right. split; [done |]. split; [| done].
      destruct (H1 p) as [Heq1|(Hn1 & _)]; congruence.
  - rewrite Hw2, Hw1. reflexivity.
Qed.

Lemma is_dir_in_tree (w : World) (d : path) :
  d <> [] -> is_dir w d = true -> tree w !! d = Some Dir.
Proof.
  unfold is_dir, lookup_node. destruct d as [|c d]; [done |]. intros _ H.
  match type of H with
  | context [match ?x with _ => _ end] => destruct x as [[]|] eqn:Hl
  end; done.
Qed.

Lemma remove_empty_loop_prunes (root : path) (dirs : list path) (removed : nat)
    (s : State) (r : result nat) (s' : State) :
  Forall (fun d : path => d <> [] ∧ d <> root ∧ is_Some (relative_to d root)) dirs ->
  remove_empty_loop dirs removed s = (r, s') ->
  exists k, r = Ok (removed + k)%nat
            ∧ size (tree (world s)) = (size (tree (world s')) + k)%nat
            ∧ pruned root s s'.
Proof.
  intros Hdirs. revert removed s.
  induction Hdirs as [|d dirs (Hnil & Hroot & Hrel) Hdirs IH]; intros removed s Hrun;
    cbn [remove_empty_loop] in Hrun.
  - inversion Hrun; subst. exists 0%nat. split; [by rewrite Nat.add_0_r |].
    split; [lia | apply pruned_refl].
  - unfold mbind, M_bind, gets in Hrun. cbn beta iota in Hrun.
    destruct (is_dir (world s) d && bool_decide (iterdir (world s) d = [])) eqn:Hempty.
    2:{ exact (IH _ _ Hrun). }
    apply andb_true_iff in Hempty as [Hdir Hiter].
    unfold try_M, on_world, rmdir in Hrun.
    destruct (bool_decide (d ∈ denied (world s))) eqn:Hden.
    + cbn in Hrun. apply IH in Hrun as (k & -> & Hsize & Hpr). exists k.
      split; [done |]. split; [exact Hsize |].
      eapply pruned_trans; [| exact Hpr]. destruct s as [[] ? ? ?]. apply pruned_refl.
    + rewrite Hiter in Hrun. cbn in Hrun.
      apply IH in Hrun as (k & -> & Hsize & Hpr). exists (S k).
      pose proof (is_dir_in_tree _ _ Hnil Hdir) as Hd.
      cbn [world tree with_tree] in Hsize.
      rewrite map_size_delete_Some in Hsize by (by eexists).
      assert (Hpos : (0 < size (tree (world s)))%nat).
      { destruct (decide (size (tree (world s)) = 0%nat)) as [H0|]; [| lia].
        apply map_size_empty_inv in H0. rewrite H0, lookup_empty in Hd. discriminate. }
      split; [f_equal; lia |]. split; [lia |].
      eapply pruned_trans; [| exact Hpr].
      split; [| done]. intros p. cbn [world tree with_tree].
      destruct (decide (d = p)) as [<-|Hne].
      * right. rewrite lookup_delete_eq. done.
      * left. by rewrite lookup_delete_ne.
Qed.

Lemma dirs_bottom_up_below (w : World) (root : path) :
  Forall (fun d : path => d <> [] ∧ d <> root ∧ is_Some (relative_to d root))
         (dirs_bottom_up w root).
Proof.
  apply Forall_forall. intros d Hd. unfold dirs_bottom_up in Hd.
  rewrite merge_sort_Permutation in Hd.
  apply list_elem_of_filter in Hd as [(Hrel & Hne & _) _].
  split; [| done]. intros ->. destruct root as [|c root]; [done |].
  cbn in Hrel. by destruct Hrel.
Qed.




(** *** A source that is not a directory *)



(** *** The dictionary read from exiftool *)








(** *** Scan reports *)

Lemma dedupe_length (files : list path) (seen : gset (path * str)) :
  (length (dedupe files seen) <= length files)%nat.
Proof.
  revert seen. induction files as [|f files IH]; intros seen; cbn [dedupe length]; [lia |].
  destruct (bool_decide _); cbn [length];
    match goal with |- context [dedupe files ?x] => pose proof (IH x) end; lia.
Qed.

Lemma to_process_length (collected : list path) :
  (length (to_process_of collected) <= length collected)%nat.
Proof.
  unfold to_process_of. etrans; [apply dedupe_length |].
  by rewrite merge_sort_Permutation.
Qed.

(** X17.  In every report that scan_and_organize returns, to_process is at
    most total_media and the mode is the one asked for; the report of a
    source that is no directory counts no media and has no entries; and in
    organize mode on a directory the entries are the report list of the run. *)
Theorem scan_report_counts_are_consistent
    (E : Env) (o : Organizer) (src out : path) (dry_run scan_only : bool)
    (s : State) (rep : ScanReport) (s' : State) :
  scan_and_organize E o src out dry_run scan_only s = (Ok rep, s') ->
  (sr_to_process rep <= sr_total_media rep)%nat
  ∧ sr_mode rep = (if scan_only then py "scan_only" else py "organize")
  ∧ (is_dir (world s) src = false ->
     sr_total_media rep = 0%nat ∧ sr_entries rep = [])
  ∧ (scan_only = false -> is_dir (world s) src = true -> sr_entries rep = report s').
Proof.
  unfold scan_and_organize. intros Hrun.
  apply bind_Ok_inv in Hrun as (okay & s1 & Hget & Hrun).
  unfold gets in Hget. inversion Hget; subst okay s1. clear Hget.
  assert (Hok : exists_ (world s) src && is_dir (world s) src = is_dir (world s) src).
  { unfold exists_, is_dir. destruct (lookup_node (world s) src) as [[]|]; try done.
    all: by rewrite bool_decide_eq_true_2 by eauto. }
  rewrite Hok in Hrun. destruct (is_dir (world s) src); cbn [negb] in Hrun.
  2:{ inversion Hrun; subst. cbn. split; [lia |]. split; [done |]. split; [done |].
      intros _ ?. discriminate. }
  apply bind_Ok_inv in Hrun as (collected & s1 & _ & Hrun).
  pose proof (to_process_length collected) as Hlen.
  destruct scan_only.
  - apply bind_Ok_inv in Hrun as (entries & s2 & _ & Hrun).
    inversion Hrun; subst. cbn. split; [done |]. split; [done |].
    split; intros; discriminate.
  - apply bind_Ok_inv in Hrun as (u1 & s2 & _ & Hrun).
    apply bind_Ok_inv in Hrun as (u2 & s3 & _ & Hrun).
    apply bind_Ok_inv in Hrun as (u3 & s4 & _ & Hrun).
    apply bind_Ok_inv in Hrun as (entries & s5 & Hget & Hrun).
    unfold gets in Hget. inversion Hget; subst. inversion Hrun; subst.
    cbn. split; [done |]. split; [done |]. split; [intros; discriminate | done].
Qed.

Lemma scan_report_counts_are_consistent_witness :
  match (scan_and_organize bare_env (init default_config) [py "s"] [py "out"] false true
           (state_of small_tree)).1 with
  | Ok rep => (sr_to_process rep <= sr_total_media rep)%nat
  | Raise _ => False
  end.
Proof.
  destruct (scan_and_organize bare_env (init default_config) [py "s"] [py "out"] false true
              (state_of small_tree)) as [[rep|e] s'] eqn:Hrun.
  - exact (proj1 (scan_report_counts_are_consistent _ _ _ _ _ _ _ _ _ Hrun)).
  - revert Hrun. vm_compute. discriminate.
Defined.

(** *** Classification *)



(** *** Devices *)

Lemma pattern_or_unknown_shape (E : Env) (o : Organizer) (p : path) :
  pattern_or_unknown E o p = device_unknown_name (config o)
  ∨ exists raw, raw <> [] ∧ pattern_or_unknown E o p = _sanitize_folder_name raw.
Proof.
  unfold pattern_or_unknown. destruct (_device_from_filename_pattern E p) as [dev|]; [| by left].
  destruct (bool_decide (dev = [])) eqn:Hd; [by left |].
  apply bool_decide_eq_false in Hd. right. by exists dev.
Qed.

(** X19.  Whenever get_device returns, the device is the drone brand, the
    configured unknown-device name, or a sanitised name: non-empty, at most
    80 code points, free of forbidden characters. *)
Theorem device_is_drone_unknown_or_sanitized
    (E : Env) (w : World) (o : Organizer) (p : path) (mt : media_type) (d : str) :
  get_device E w o p mt = Ok d ->
  d = dji
  ∨ d = device_unknown_name (config o)
  ∨ (d <> [] ∧ (length d <= 80)%nat ∧ Forall (fun c => is_forbidden c = false) d).
Proof.
  assert (Hsan : forall dev,
            Ok (_sanitize_folder_name dev) = Ok d ->
            d = dji ∨ d = device_unknown_name (config o)
            ∨ (d <> [] ∧ (length d <= 80)%nat ∧ Forall (fun c => is_forbidden c = false) d)).
  { intros dev [= <-]. right. right. apply sanitize_folder_name_spec. }
  assert (Hpat : Ok (pattern_or_unknown E o p) = Ok d ->
            d = dji ∨ d = device_unknown_name (config o)
            ∨ (d <> [] ∧ (length d <= 80)%nat ∧ Forall (fun c => is_forbidden c = false) d)).
  { intros [= <-]. destruct (pattern_or_unknown_shape E o p) as [->|(raw & _ & ->)].
    - right. by left.
    - right. right. apply sanitize_folder_name_spec. }
  unfold get_device. intros Hrun.
  destruct (negb (bool_decide (mt ∈ [image; video; panoramic_video])));
    [injection Hrun as <-; right; by left |].
  destruct (_ || _); [injection Hrun as <-; by left |].
  destruct (_ && _); [injection Hrun as <-; by left |].
  destruct (bool_decide (mt = image)).
  - destruct (_device_from_exif_pillow E p) as [dev|e]; [| discriminate].
    cbn [mbind result_bind] in Hrun.
    match type of Hrun with
    | (?m ≫= _) = _ => destruct m as [dev'|e]; [| discriminate]
    end.
    cbn [mbind result_bind] in Hrun.
    match type of Hrun with
    | (if ?c then _ else _) = _ => destruct c; [exact (Hpat Hrun) | exact (Hsan _ Hrun)]
    end.
  - match type of Hrun with
    | (?m ≫= _) = _ => destruct m as [dev'|e]; [| discriminate]
    end.
    cbn [mbind result_bind] in Hrun.
    match type of Hrun with
    | (if ?c then _ else _) = _ => destruct c; [exact (Hpat Hrun) | exact (Hsan _ Hrun)]
    end.
Qed.

Lemma device_is_drone_unknown_or_sanitized_witness :
  get_device canon_env small_tree (init default_config) [py "s"; py "a.jpg"] image
  = Ok (py "Canon EOS R5")
  ∧ (py "Canon EOS R5" = dji
     ∨ py "Canon EOS R5" = device_unknown_name (config (init default_config))
     ∨ (py "Canon EOS R5" <> [] ∧ (length (py "Canon EOS R5") <= 80)%nat
        ∧ Forall (fun c => is_forbidden c = false) (py "Canon EOS R5"))).
Proof.
  assert (Hrun : get_device canon_env small_tree (init default_config)
                   [py "s"; py "a.jpg"] image = Ok (py "Canon EOS R5"))
    by (vm_compute; reflexivity).
  split; [exact Hrun |].
  exact (device_is_drone_unknown_or_sanitized _ _ _ _ _ _ Hrun).
Defined.

(** *** Empty folders are removed bottom-up *)

Lemma deeper_trans : Transitive deeper.
Proof. intros a b c. unfold deeper. lia. Qed.

Lemma deeper_total : Total deeper.
Proof. intros a b. unfold deeper. lia. Qed.

Lemma parent_length (c : path) : c <> [] -> length c = S (length (parent c)).
Proof.
  intros Hc. unfold parent. destruct (exists_last Hc) as (c' & x & ->).
  rewrite removelast_last, length_app. cbn. lia.
Qed.

Lemma tree_dir_is_dir (w : World) (d : path) :
  d <> [] -> tree w !! d = Some Dir -> is_dir w d = true.
Proof.
  intros Hd Ht. unfold is_dir, lookup_node. destruct d as [|c d]; [done |].
  match goal with
  | |- (match ?x with _ => _ end) = true =>
    assert (Hx : x = Some Dir) by exact Ht; by rewrite Hx
  end.
Qed.

Lemma remove_empty_loop_complete (todo : list path) :
  forall (done_ : list path) (removed : nat) (s : State) (r : result nat) (s' : State),
  StronglySorted deeper todo ->
  denied (world s) = ∅ ->
  (forall d : path, d ∈ todo -> d <> []) ->
  (forall d : path, d ∈ done_ -> tree (world s) !! d = Some Dir ->
     exists c : path, c <> [] ∧ parent c = d ∧ is_Some (tree (world s) !! c) ∧ c ∉ todo) ->
  remove_empty_loop todo removed s = (r, s') ->
  forall d : path, d ∈ done_ ∨ d ∈ todo -> tree (world s') !! d = Some Dir ->
    iterdir (world s') d <> [].
Proof.
  induction todo as [|d todo IH]; intros done_ removed s r s' Hsorted Hden Hnil Hinv Hrun x Hx Hdir.
  - cbn in Hrun. inversion Hrun; subst. destruct Hx as [Hx|Hx]; [| by apply elem_of_nil in Hx].
    destruct (Hinv x Hx Hdir) as (c & Hc & Hpar & Hsome & _).
    intros Hiter. assert (Hin : c ∈ iterdir (world s') x) by (by apply iterdir_spec).
    rewrite Hiter in Hin. by apply elem_of_nil in Hin.
  - apply StronglySorted_inv in Hsorted as [Hsorted Hhead].
    assert (Hd : d <> []) by (apply Hnil; by left).
    assert (Hnil' : forall y : path, y ∈ todo -> y <> []) by (intros y Hy; apply Hnil; by right).
    assert (Hx' : x ∈ done_ ++ [d] ∨ x ∈ todo).
    { destruct Hx as [Hx|Hx]; [left; apply elem_of_app; by left |].
      apply elem_of_cons in Hx as [->|Hx]; [left; apply elem_of_app; right; by left | by right]. }
    cbn [remove_empty_loop] in Hrun. unfold mbind, M_bind, gets in Hrun. cbn beta iota in Hrun.
    destruct (is_dir (world s) d && bool_decide (iterdir (world s) d = [])) eqn:Hempty.
    + unfold try_M, on_world, rmdir in Hrun.
      rewrite Hden in Hrun. rewrite bool_decide_eq_false_2 in Hrun by set_solver.
      apply andb_true_iff in Hempty as [Hisdir Hiter]. rewrite Hiter in Hrun. cbn in Hrun.
      eapply (fun Hd' Hi' => IH (done_ ++ [d]) _ _ _ _ Hsorted Hd' Hnil' Hi' Hrun x Hx' Hdir);
        [exact Hden |].
      intros y Hy Hy_dir. cbn [world tree with_tree] in Hy_dir.
      apply lookup_delete_Some in Hy_dir as [Hne Hy_dir].
      apply elem_of_app in Hy as [Hy|Hy]; [| apply list_elem_of_singleton in Hy; congruence].
      destruct (Hinv y Hy Hy_dir) as (c & Hc & Hpar & Hsome & Hnot).
      exists c. split; [done |]. split; [done |]. split.
      * cbn [world tree with_tree]. rewrite lookup_delete_ne; [done |].
        intros ->. apply Hnot. by left.
      * intros Hin. apply Hnot. by right.
    + eapply (fun Hd' Hi' => IH (done_ ++ [d]) _ _ _ _ Hsorted Hd' Hnil' Hi' Hrun x Hx' Hdir);
        [exact Hden |].
      intros y Hy Hy_dir. apply elem_of_app in Hy as [Hy|Hy].
      * destruct (Hinv y Hy Hy_dir) as (c & Hc & Hpar & Hsome & Hnot).
        exists c. split; [done |]. split; [done |]. split; [done |].
        intros Hin. apply Hnot. by right.
      * apply list_elem_of_singleton in Hy. subst y.
        rewrite (tree_dir_is_dir _ _ Hd Hy_dir) in Hempty. cbn [andb] in Hempty.
        apply bool_decide_eq_false in Hempty.
        destruct (iterdir (world s) d) as [|c rest] eqn:Hiter; [done |].
        assert (Hc : c ∈ iterdir (world s) d) by (rewrite Hiter; by left).
        apply iterdir_spec in Hc as (Hc & Hpar & Hsome).
        exists c. split; [done |]. split; [done |]. split; [done |].
        intros Hin. rewrite Forall_forall in Hhead. apply Hhead in Hin.
        unfold deeper in Hin. rewrite (parent_length c Hc), Hpar in Hin. lia.
Qed.

(** X20.  When the resolved root is a directory and the file system refuses
    nothing, _remove_empty_dirs leaves no empty directory strictly below the
    root: working bottom-up, it also removes the folders that become empty
    when their empty subfolders go. *)
Theorem remove_empty_dirs_leaves_no_empty_folder
    (E : Env) (root : path) (s : State) (r : result nat) (s' : State) :
  is_dir (world s) (resolve E root) = true ->
  denied (world s) = ∅ ->
  _remove_empty_dirs E root s = (r, s') ->
  forall d : path,
    d <> resolve E root -> is_Some (relative_to d (resolve E root)) ->
    tree (world s') !! d = Some Dir ->
    iterdir (world s') d <> [].
Proof.
  intros Hroot Hden Hrun d Hne Hrel Hdir.
  unfold _remove_empty_dirs, mbind, M_bind, gets in Hrun. cbn beta iota in Hrun.
  assert (Hok : exists_ (world s) (resolve E root) = true).
  { unfold exists_. unfold is_dir in Hroot.
    destruct (lookup_node (world s) (resolve E root)) as [n|]; [| discriminate].
    by rewrite bool_decide_eq_true_2 by eauto. }
  rewrite Hok, Hroot in Hrun. cbn [andb] in Hrun.
  pose proof (dirs_bottom_up_below (world s) (resolve E root)) as Hbelow.
  rewrite Forall_forall in Hbelow.
  destruct (remove_empty_loop_prunes (resolve E root) _ _ _ _ _
              (proj2 (Forall_forall _ _) Hbelow) Hrun) as (k & _ & _ & Hpruned & _).
  assert (Hdir0 : tree (world s) !! d = Some Dir).
  { destruct (Hpruned d) as [Heq|(Hnone & _)]; congruence. }
  assert (Hd : d <> []).
  { intros ->. destruct (resolve E root) as [|c root']; [done |]. cbn in Hrel. by destruct Hrel. }
  eapply (remove_empty_loop_complete _ []); [| exact Hden | | | exact Hrun | | exact Hdir].
  - unfold dirs_bottom_up. apply StronglySorted_merge_sort; [apply deeper_trans | apply deeper_total].
  - intros y Hy. by apply Hbelow.
  - intros y Hy. by apply elem_of_nil in Hy.
  - right. unfold dirs_bottom_up. rewrite merge_sort_Permutation.
    apply list_elem_of_filter. split.
    + split; [done |]. split; [done |]. apply Is_true_true. by apply tree_dir_is_dir.
    + apply elem_of_elements, elem_of_dom. by eexists.
Qed.

Lemma remove_empty_dirs_leaves_no_empty_folder_witness :
  iterdir (world (_remove_empty_dirs bare_env [py "t"] (state_of hollow_tree)).2)
          [py "t"; py "c"] <> [].
Proof.
  apply (remove_empty_dirs_leaves_no_empty_folder bare_env [py "t"] (state_of hollow_tree)
           (_remove_empty_dirs bare_env [py "t"] (state_of hollow_tree)).1).
  - vm_compute. reflexivity.
  - reflexivity.
  - apply surjective_pairing.
  - vm_compute. discriminate.
  - vm_compute. by eexists.
  - vm_compute. reflexivity.
Defined.

(** *** Dates and frame rates *)

Lemma mtime_fallback_dates (E : Env) (w : World) (o : Organizer) (p : path) (t : Z)
    (d : datetime) :
  date_fallback (config o) = py "mtime" ->
  stat_mtime w p = Ok t -> fromtimestamp E t = Ok d ->
  mtime_fallback E w o p = Ok (Some d).
Proof.
  intros Hfb Hstat Hts. unfold mtime_fallback.
  rewrite bool_decide_eq_true_2 by exact Hfb. rewrite Hstat. cbn [mbind result_bind].
  rewrite Hts. reflexivity.
Qed.

(** X21.  With date_fallback set to mtime, for a path whose stat succeeds
    and whose time stamp converts, get_shoot_date never returns the absent
    value: whenever it returns, it returns a date, for every media type and
    whatever the metadata probes say. *)
Theorem mtime_fallback_always_dates_an_existing_file
    (E : Env) (w : World) (o : Organizer) (p : path) (mt : media_type) (t : Z)
    (d : datetime) (shoot_date : option datetime) :
  date_fallback (config o) = py "mtime" ->
  stat_mtime w p = Ok t -> fromtimestamp E t = Ok d ->
  get_shoot_date E w o p mt = Ok shoot_date ->
  is_Some shoot_date.
Proof.
  intros Hfb Hstat Hts. pose proof (mtime_fallback_dates E w o p t d Hfb Hstat Hts) as Hm.
  unfold get_shoot_date. rewrite Hm. intros Hrun.
  destruct (bool_decide (mt = image)).
  - destruct (_date_from_exif_pillow E p) as [dt|e]; [| discriminate].
    cbn [mbind result_bind] in Hrun.
    match type of Hrun with
    | (?m ≫= _) = _ => destruct m as [[d1|]|e]; [| | discriminate]
    end; cbn [mbind result_bind] in Hrun; injection Hrun as <-; by eexists.
  - match type of Hrun with
    | (?m ≫= _) = _ => destruct m as [[d1|]|e]; [| | discriminate]
    end; cbn [mbind result_bind] in Hrun; [injection Hrun as <-; by eexists |].
    destruct (_date_from_hachoir E p) as [[d2|]|e]; [| | discriminate];
      cbn [mbind result_bind] in Hrun; injection Hrun as <-; by eexists.
Qed.

Lemma mtime_fallback_always_dates_an_existing_file_witness :
  get_shoot_date bare_env small_tree (init default_config) [py "s"; py "a.jpg"] image
  = Ok (Some 0%Z)
  ∧ is_Some (Some 0%Z : option datetime).
Proof.
  assert (Hrun : get_shoot_date bare_env small_tree (init default_config)
                   [py "s"; py "a.jpg"] image = Ok (Some 0%Z))
    by (vm_compute; reflexivity).
  split; [exact Hrun |].
  apply (mtime_fallback_always_dates_an_existing_file bare_env small_tree (init default_config)
           [py "s"; py "a.jpg"] image 0%Z 0%Z (Some 0%Z)).
  - vm_compute. reflexivity.
  - vm_compute. reflexivity.
  - reflexivity.
  - exact Hrun.
Defined.

Lemma fps_from_tags_shape (E : Env) (m : gmap str str) (keys : list str) (s : str) :
  fps_from_tags E m keys = Ok (Some s) -> exists n : Z, s = str_of_Z n ++ py "fps".
Proof.
  induction keys as [|key keys IH]; cbn [fps_from_tags]; [discriminate |].
  destruct (bool_decide (strip (getd m key) = [])); [exact IH |].
  destruct (re_match_number _).
  - destruct (int_float E _) as [n|e]; [| discriminate]. cbn [mbind result_bind].
    intros [= <-]. by exists n.
  - destruct (re_search_fps _) as [g|]; [| exact IH].
    destruct (int_float E g) as [n|e]; [| discriminate]. cbn [mbind result_bind].
    intros [= <-]. by exists n.
Qed.

(** X22.  Whenever _get_frame_rate returns, the string is empty or a whole
    number followed by fps, and it is empty for every media type other than
    video and panoramic_video. *)
Theorem frame_rate_is_empty_or_whole_fps
    (E : Env) (w : World) (p : path) (mt : media_type) (use_exiftool : bool) (s : str) :
  _get_frame_rate E w p mt use_exiftool = Ok s ->
  (is_video_kind mt = false -> s = [])
  ∧ (s = [] ∨ exists n : Z, s = str_of_Z n ++ py "fps").
Proof.
  unfold _get_frame_rate. intros Hrun.
  destruct (is_video_kind mt); cbn [negb] in Hrun.
  2:{ injection Hrun as <-. split; [done | by left]. }
  split; [discriminate |].
  match type of Hrun with
  | (?m ≫= _) = _ => destruct m as [[s1|]|e] eqn:H1; [| | discriminate]
  end; cbn [mbind result_bind] in Hrun.
  - injection Hrun as <-. right. destruct use_exiftool; [| discriminate].
    destruct (_exiftool_get E w p _ true) as [m|e]; [| discriminate].
    cbn [mbind result_bind] in H1. by eapply fps_from_tags_shape.
  - match type of Hrun with
    | (?m ≫= _) = _ => destruct m as [[s2|]|e] eqn:H2; [| | discriminate]
    end; cbn [mbind result_bind] in Hrun; injection Hrun as <-; [| by left].
    right. destruct (hachoir_available E); [| discriminate].
    destruct (hachoir_meta E p) as [[meta|]|e];
      cbn [mbind result_bind try_except any_exception] in H2; try discriminate.
    match type of H2 with
    | context [match ?x with Some _ => _ | None => _ end] => destruct x as [r|]
    end; [| discriminate].
    destruct (hvalue_int E r) as [n|e];
      cbn [mbind result_bind try_except any_exception] in H2; [| discriminate].
    injection H2 as <-. by exists n.
Qed.

Lemma frame_rate_is_empty_or_whole_fps_witness :
  _get_frame_rate bare_env small_tree [py "s"; py "clip.mp4"] video true = Ok []
  ∧ (([] : str) = [] ∨ exists n : Z, ([] : str) = str_of_Z n ++ py "fps").
Proof.
  assert (Hrun : _get_frame_rate bare_env small_tree [py "s"; py "clip.mp4"] video true = Ok [])
    by (vm_compute; reflexivity).
  split; [exact Hrun |].
  exact (proj2 (frame_rate_is_empty_or_whole_fps _ _ _ _ _ _ Hrun)).
Defined.

(** *** The super copy writes only below its target *)

Lemma below_refl (root : path) : below root root.
Proof. exists []. by rewrite app_nil_r. Qed.

























Section WritesBelowTarget.
Context (E : Env) (o : Organizer) (target : path).
Context (Hquiet : forall w, interference E w = w).
Context (Hnaming : unified_naming (config o) = true).
Context (Hdates : forall d, startswith (strftime E d (date_format (config o))) [47] = false).
Context (Himg : startswith (image_subfolder (config o)) [47] = false).
Context (Hvid : startswith (video_subfolder (config o)) [47] = false).
Context (Hpan : startswith (panoramic_subfolder (config o)) [47] = false).
Context (Haud : startswith (audio_subfolder (config o)) [47] = false).








End WritesBelowTarget.




